(** * Credential and grant lifecycle of charon (gravyvalet)

    A shallow embedding of the OAuth grant ledger
    ([BaseOAuthUserSettings]), the node binding ([BaseOAuthNodeSettings])
    and the handshake / refresh logic ([ExternalProvider]) of
    [charon/models-djangostyle.py], with the properties the specification
    states about them.

    Python dictionaries are finite maps ([gmap]); a loop over
    [d.items()] runs over [map_to_list d].  The order of that list is the
    key order of the map, not Python's insertion order.  The loops of
    [grant_oauth_access], [verify_oauth_access] and [revoke_oauth_access]
    and the two outer loops of [merge] give the same map, truth value or
    set of nodes in any order; only the innermost loop of [merge] depends
    on it, when two keys of one metadata dictionary start with the same
    character. *)

From Stdlib Require Import ZArith String.
From stdpp Require Import base option list strings gmap fin_maps.

Local Open Scope string_scope.
Local Open Scope Z_scope.

(** ** Python values, exceptions and results *)

Module Py.

(** The scalar values that flow through the dictionaries of the source:
    [None], text, integers and (timezone-aware) datetimes.  A datetime is
    the number of microseconds since the epoch. *)
Inductive pyval : Type :=
| PNone
| PStr (s : string)
| PInt (z : Z)
| PTime (t : Z).

#[export] Instance pyval_eq_dec : EqDecision pyval.
Proof. solve_decision. Defined.

(** [bool(v)] *)
Definition truthy (v : pyval) : bool :=
  match v with
  | PNone => false
  | PStr s => negb (String.eqb s "")
  | PInt z => negb (z =? 0)
  | PTime _ => true
  end.

(** [d.get(k)]: [None] when the key is absent. *)
Definition dict_get (d : gmap string pyval) (k : string) : pyval :=
  default PNone (d !! k).

(** [k in d] *)
Definition key_in {V} (k : string) (d : gmap string V) : bool :=
  bool_decide (is_Some (d !! k)).

Inductive exn : Type :=
| PermissionsError (msg : string)
| KeyError (key : string)
| ValueError
| TypeError
| AttributeError
| OverflowError
| HTTPError (status : Z)
| AccessDeniedError
| InvalidGrantError
| TokenExpiredError
| MissingTokenError
| RequestsHTTPError
| ValidationError
| TransportError (msg : string).

#[export] Instance exn_eq_dec : EqDecision exn.
Proof. solve_decision. Defined.

(** The outcome of a call: a returned value or a raised exception. *)
Inductive result (A : Type) : Type :=
| Ok (a : A)
| Raise (e : exn).
Arguments Ok {A} a.
Arguments Raise {A} e.

(** Sequencing: the first exception aborts the rest of the block. *)
#[export] Instance result_ret : MRet result := λ A a, Ok a.
#[export] Instance result_bind : MBind result := λ A B k r,
  match r with
  | Ok a => k a
  | Raise e => Raise e
  end.

End Py.
Import Py.

(** ** The authorization grant ledger: [BaseOAuthUserSettings] *)

Module Ledger.

(** Grant metadata, e.g. [{"folder": "5"}]. *)
Abbreviation metadata := (gmap string pyval).
(** [oauth_grants]: node id, then external account id, then metadata. *)
Abbreviation grants := (gmap string (gmap string metadata)).

(** A user-settings row of one addon.  [addon] stands for the class of
    the row together with [oauth_provider.short_name] (each addon has its
    own settings class and provider); [owner_external_accounts] is
    [self.owner.external_accounts], account id to provider short name. *)
Record UserSettings : Type := {
  addon : string;
  owner : string;
  owner_external_accounts : gmap string string;
  oauth_grants : grants;
}.

Definition set_oauth_grants (g : grants) (self : UserSettings) : UserSettings :=
  {| addon := addon self;
     owner := owner self;
     owner_external_accounts := owner_external_accounts self;
     oauth_grants := g |}.

(** [self.oauth_grants[node._id][external_account._id]], [None] standing
    for the [KeyError]. *)
Definition grant_entry (self : UserSettings) (node acct : string) : option metadata :=
  oauth_grants self !! node ≫= (.!! acct).

(** [self.external_accounts]: the owner's accounts on this provider. *)
Definition external_accounts (self : UserSettings) : gmap string string :=
  filter (λ kv, kv.2 = addon self) (owner_external_accounts self).

(** [has_auth] *)
Definition has_auth (self : UserSettings) : bool :=
  bool_decide (external_accounts self ≠ ∅).

(** *** [grant_oauth_access] *)

(** [for key, value in items: grants[node][acct][key] = value] *)
Fixpoint update_metadata (g : grants) (node acct : string)
    (items : list (string * pyval)) : grants :=
  match items with
  | [] => g
  | (key, value) :: rest =>
      update_metadata (alter (alter (insert key value) acct) node g) node acct rest
  end.

Definition grant_oauth_access (self : UserSettings) (node acct : string)
    (md : option metadata) : result UserSettings :=
  (* ensure the user owns the external_account *)
  if negb (key_in acct (owner_external_accounts self)) then
    Raise (PermissionsError "")
  else
    let md := default ∅ md in
    let g := oauth_grants self in
    (* create an entry for the node, if necessary *)
    let g := if negb (key_in node g) then <[node := ∅]> g else g in
    (* create an entry for the external account on the node, if necessary *)
    let g := if negb (key_in acct (default ∅ (g !! node)))
             then alter (insert acct ∅) node g else g in
    (* update the metadata with the supplied values *)
    Ok (set_oauth_grants (update_metadata g node acct (map_to_list md)) self).

(** The same loop seen on the metadata of the pair alone: [d[key] = value]
    for each item in turn. *)
Definition setitems (m : metadata) (items : list (string * pyval)) : metadata :=
  foldl (λ acc kv, <[kv.1 := kv.2]> acc) m items.

(** *** [verify_oauth_access] *)

(** The loop over [metadata.items()], leaving at the first pair that was
    not granted. *)
Fixpoint verify_items (granted : metadata) (items : list (string * pyval)) : bool :=
  match items with
  | [] => true
  | (key, value) :: rest =>
      if negb (key_in key granted) || negb (bool_decide (granted !! key = Some value))
      then false
      else verify_items granted rest
  end.

Definition verify_oauth_access (self : UserSettings) (node acct : string)
    (md : option metadata) : bool :=
  let md := default ∅ md in
  match grant_entry self node acct with
  | None => false
  | Some granted => verify_items granted (map_to_list md)
  end.

(** *** [get_nodes_with_oauth_grants] and [revoke_oauth_access] *)

(** The generator's loop.  [nodes] is the node table behind
    [AbstractNode.load], node id to [is_deleted]; an id without a row
    loads as [None], on which [node.is_deleted] raises. *)
Fixpoint nodes_with_grants_loop (nodes : gmap string bool) (acct : string)
    (items : list (string * gmap string metadata)) : result (list string) :=
  match items with
  | [] => Ok []
  | (node_id, node_grants) :: rest =>
      if key_in acct node_grants then
        match nodes !! node_id with
        | None => Raise AttributeError
        | Some is_deleted =>
            yielded ← nodes_with_grants_loop nodes acct rest;
            Ok (if negb is_deleted then node_id :: yielded else yielded)
        end
      else nodes_with_grants_loop nodes acct rest
  end.

Definition get_nodes_with_oauth_grants (self : UserSettings)
    (nodes : gmap string bool) (acct : string) : result (list string) :=
  nodes_with_grants_loop nodes acct (map_to_list (oauth_grants self)).

(** What a call of [revoke_oauth_access] leaves behind: the settings row,
    the nodes whose addon it asked to [deauthorize] (the resource ids the
    specification's [revoke] hands to its caller), and whether
    [revoke_remote_oauth_access] was invoked.  The method itself returns
    [None]; when the generator raises, the settings row is not touched. *)
Record Revoked : Type := {
  revoked_settings : UserSettings;
  deauthorized : list string;
  remote_revoked : bool;
}.

(** [osfuser_set] are the users holding the account, [auth_user] is
    [auth.user]. *)
Definition revoke_oauth_access (self : UserSettings) (nodes : gmap string bool)
    (acct : string) (osfuser_set : gset string) (auth_user : string) : result Revoked :=
  visited ← get_nodes_with_oauth_grants self nodes acct;
  let remote :=
    bool_decide (size osfuser_set = 1%nat) && bool_decide (auth_user ∈ osfuser_set) in
  (* for key in self.oauth_grants: self.oauth_grants[key].pop(acct, None) *)
  Ok {| revoked_settings := set_oauth_grants (delete acct <$> oauth_grants self) self;
        deauthorized := visited;
        remote_revoked := remote |}.

(** *** [merge] *)

(** A Python [str] is held as its UTF-8 encoding.  Its characters are the
    code points: a lead byte together with the continuation bytes (0x80 to
    0xBF) that follow it. *)
Definition is_continuation (c : Ascii.ascii) : bool :=
  let n := Ascii.N_of_ascii c in ((128 <=? n) && (n <? 192))%N.

Fixpoint code_points (s : string) : list string :=
  match s with
  | EmptyString => []
  | String c rest =>
      let continued :=
        match rest with
        | String c' _ => is_continuation c'
        | EmptyString => false
        end in
      match code_points rest with
      | g :: gs =>
          if continued then String c g :: gs else String c EmptyString :: g :: gs
      | [] => [String c EmptyString]
      end
  end.

(** [k, v = key]: unpacking a text of exactly two characters. *)
Definition unpack2 (s : string) : option (string * string) :=
  match code_points s with
  | [c1; c2] => Some (c1, c2)
  | _ => None
  end.

(** [for k, v in meta:], which iterates the keys of [meta] and unpacks
    each key into its two characters. *)
Fixpoint merge_meta_loop (dst : metadata) (keys : list string) : result metadata :=
  match keys with
  | [] => Ok dst
  | key :: rest =>
      match unpack2 key with
      | None => Raise ValueError
      | Some (k, v) =>
          merge_meta_loop (if negb (key_in k dst) then <[k := PStr v]> dst else dst) rest
      end
  end.

(** [for ext_acct, meta in node_grants:] *)
Fixpoint merge_accounts_loop (dst : gmap string metadata)
    (items : list (string * metadata)) : result (gmap string metadata) :=
  match items with
  | [] => Ok dst
  | (ext_acct, meta) :: rest =>
      match dst !! ext_acct with
      | None => merge_accounts_loop (<[ext_acct := meta]> dst) rest
      | Some dst_meta =>
          merged ← merge_meta_loop dst_meta (map_to_list meta).*1;
          merge_accounts_loop (<[ext_acct := merged]> dst) rest
      end
  end.

(** [for node_id, data in user_settings.oauth_grants.items():] *)
Fixpoint merge_nodes_loop (dst : grants)
    (items : list (string * gmap string metadata)) : result grants :=
  match items with
  | [] => Ok dst
  | (node_id, data) :: rest =>
      match dst !! node_id with
      | None => merge_nodes_loop (<[node_id := data]> dst) rest
      | Some dst_node =>
          merged ← merge_accounts_loop dst_node (map_to_list data);
          merge_nodes_loop (<[node_id := merged]> dst) rest
      end
  end.

(** What the merge is meant to produce for two grant mappings that share no
    (resource, account) pair: resource by resource, the accounts of both
    sides side by side. *)
Definition join_grants (dst src : grants) : grants :=
  union_with (λ dst_node data, Some (data ∪ dst_node)) dst src.

(** [self.merge(user_settings)] for two distinct rows; the result is the
    pair of [self] and [user_settings] as saved.  The repointing of the
    node settings rows that follows is outside the ledger. *)
Definition merge (self user_settings : UserSettings) : result (UserSettings * UserSettings) :=
  if negb (String.eqb (addon user_settings) (addon self)) then
    Raise TypeError
  else
    g ← merge_nodes_loop (oauth_grants self) (map_to_list (oauth_grants user_settings));
    Ok (set_oauth_grants g self, set_oauth_grants ∅ user_settings).

End Ledger.

(** ** The node binding: [BaseOAuthNodeSettings] with the Box [NodeSettings] *)

Module NodeBinding.
Import Ledger.

(** A node-settings row.  [owner] is the node; the foreign key
    [user_settings] carries the referenced user-settings row, and
    [external_account] the account id. *)
Record NodeSettings : Type := {
  owner : string;
  user_settings : option UserSettings;
  external_account : option string;
  folder_id : option string;
  folder_name : option string;
  folder_path : option string;
}.

(** [has_auth]: the instance has an external account and active
    permission to use it. *)
Definition has_auth (self : NodeSettings) : bool :=
  match user_settings self with
  | Some us =>
      Ledger.has_auth us
      && match external_account self with
         | Some acct => verify_oauth_access us (owner self) acct None
         | None => false
         end
  | None => false
  end.

(** [complete] *)
Definition complete (self : NodeSettings) : bool :=
  has_auth self
  && match user_settings self, external_account self with
     | Some us, Some acct => verify_oauth_access us (owner self) acct None
     | _, _ => false
     end.

(** [clear_settings] of the Box node settings. *)
Definition clear_settings (self : NodeSettings) : NodeSettings :=
  {| owner := owner self;
     user_settings := user_settings self;
     external_account := external_account self;
     folder_id := None;
     folder_name := None;
     folder_path := None |}.

(** [self.nodelogger.log(...)]: the property builds its logger class from
    [logger.AddonNodeLogger], and the [logger] of the module is a
    [logging.Logger], which has no such attribute. *)
Definition nodelogger_log : result unit := Raise AttributeError.

(** [set_auth]; [user_addon] is the row [user.get_or_add_addon] yields.
    The first component is the outcome, the node-settings row as
    [self.save()] writes it or the exception; the second is the
    user-settings row as [user_settings.save()] wrote it, if the call got
    that far.  With [log] the call stops at the logger: the grant is saved
    by then, the binding is not. *)
Definition set_auth (self : NodeSettings) (acct : string) (user_addon : UserSettings)
    (md : option metadata) (log : bool) : result NodeSettings * option UserSettings :=
  match grant_oauth_access user_addon (owner self) acct md with
  | Raise e => (Raise e, None)
  | Ok us =>
      let bound :=
        {| owner := owner self;
           user_settings := Some us;
           external_account := Some acct;
           folder_id := folder_id self;
           folder_name := folder_name self;
           folder_path := folder_path self |} in
      (if log then _ ← nodelogger_log; Ok bound else Ok bound, Some us)
  end.

(** [BaseNodeSettings.after_fork]: [clone()] copies the row with every
    foreign key emptied, then the copy is attached to the fork. *)
Definition base_after_fork (self : NodeSettings) (fork : string) : NodeSettings :=
  {| owner := fork;
     user_settings := None;
     external_account := None;
     folder_id := folder_id self;
     folder_name := folder_name self;
     folder_path := folder_path self |}.

(** The local [metadata] of [after_fork] on the authorizing branch. *)
Definition fork_metadata (self : NodeSettings) (node : string) : option metadata :=
  if complete self then
    us ← user_settings self; acct ← external_account self; grant_entry us node acct
  else None.

(** [after_fork].  On the authorizing branch the settings row of [user]
    is the row [self.user_settings] refers to, since that row is owned by
    [user] and a user has one row per addon. *)
Definition after_fork (self : NodeSettings) (node fork user : string) : result NodeSettings :=
  let clone := base_after_fork self fork in
  match user_settings self, external_account self with
  | Some us, Some acct =>
      if has_auth self && bool_decide (Ledger.owner us = user) then
        (set_auth clone acct us (fork_metadata self node) false).1
      else Ok (clear_settings clone)
  | _, _ => Ok (clear_settings clone)
  end.

(** The grant the binding rests on: the ledger entry of its own node and
    account in the row it refers to. *)
Definition binding_grant (self : NodeSettings) : option metadata :=
  us ← user_settings self; acct ← external_account self;
  grant_entry us (owner self) acct.

End NodeBinding.

(** ** Handshake and credential lifecycle: [ExternalProvider] *)

Module Provider.

Inductive oauth_version : Type := OAUTH1 | OAUTH2.

(** A stored credential record.  Datetimes are microseconds since the
    epoch; a null column is [None]. *)
Record ExternalAccount : Type := {
  provider : string;
  provider_id : string;
  provider_name : string;
  oauth_key : option string;
  oauth_secret : option string;
  refresh_token : option string;
  date_last_refreshed : option Z;
  expires_at : option Z;
  scopes : list string;
  display_name : option string;
  profile_url : option string;
}.

(** The class attributes of a provider and the account it is bound to.
    [refresh_time] and [expiry_time] are in seconds. *)
Record ExternalProvider : Type := {
  _oauth_version : oauth_version;
  name : string;
  short_name : string;
  client_id : option string;
  client_secret : option string;
  auto_refresh_url : option string;
  refresh_time : Z;
  expiry_time : Z;
  account : option ExternalAccount;
}.

Definition set_account (acct : ExternalAccount) (self : ExternalProvider) : ExternalProvider :=
  {| _oauth_version := _oauth_version self;
     name := name self;
     short_name := short_name self;
     client_id := client_id self;
     client_secret := client_secret self;
     auto_refresh_url := auto_refresh_url self;
     refresh_time := refresh_time self;
     expiry_time := expiry_time self;
     account := Some acct |}.

(** What the handshake reads and writes: the [oauth_states] entry of the
    session (absent until a flow was begun), the account table keyed by
    its unique pair [(provider, provider_id)], and the accounts attached
    to each user. *)
Record World : Type := {
  oauth_states : option (gmap string (gmap string string));
  accounts : gmap (string * string) ExternalAccount;
  user_accounts : gmap string (gset (string * string));
}.

(** Truth value of a text that may be [None]. *)
Definition truthy_text (t : option string) : bool :=
  match t with
  | Some s => negb (String.eqb s "")
  | None => false
  end.

(** A value assigned to a text column must be text or [None] to pass
    [save()], one assigned to a datetime column a datetime or [None]. *)
Definition text_column (v : pyval) : result (option string) :=
  match v with
  | PNone => Ok None
  | PStr s => Ok (Some s)
  | _ => Raise ValidationError
  end.

Definition datetime_column (v : pyval) : result (option Z) :=
  match v with
  | PNone => Ok None
  | PTime t => Ok (Some t)
  | _ => Raise ValidationError
  end.

(** *** [timedelta.total_seconds()]

    [total_seconds] divides the microseconds of the difference by [10**6]
    with Python's true division of integers.  That gives the binary64
    float nearest to the quotient, a tie going to the even mantissa.  A
    float is held here as a pair [(m, e)] that stands for [m * 2^e], with
    53 bits of mantissa; the quotients of a [timedelta] are far from both
    ends of the exponent range. *)

(** The integer nearest to [n / d], a tie going to the even one, for
    [0 <= n] and [0 < d]. *)
Definition round_half_even (n d : Z) : Z :=
  let q := n / d in
  let r := n mod d in
  if 2 * r <? d then q
  else if d <? 2 * r then q + 1
  else if Z.even q then q else q + 1.

(** The exponent of the leading bit of [n / d], for [0 < n] and [0 < d]:
    [Z.log2 n - Z.log2 d] or one less. *)
Definition floor_log2 (n d : Z) : Z :=
  let p := Z.log2 n - Z.log2 d in
  if (if 0 <=? p then d * 2 ^ p <=? n else d <=? n * 2 ^ (- p)) then p else p - 1.

(** [n / d] for two integers, [0 < d]. *)
Definition true_divide (n d : Z) : Z * Z :=
  if n =? 0 then (0, 0)
  else
    let a := Z.abs n in
    let e := floor_log2 a d - 52 in
    let m :=
      if 0 <=? e then round_half_even a (d * 2 ^ e)
      else round_half_even (a * 2 ^ (- e)) d in
    (Z.sgn n * m, e).

(** [x < k] and [x > k] for a float and an integer, which Python compares
    exactly. *)
Definition float_lt (x : Z * Z) (k : Z) : bool :=
  let '(m, e) := x in
  if 0 <=? e then m * 2 ^ e <? k else m <? k * 2 ^ (- e).

Definition float_gt (x : Z * Z) (k : Z) : bool :=
  let '(m, e) := x in
  if 0 <=? e then k <? m * 2 ^ e else k * 2 ^ (- e) <? m.

(** [delta.total_seconds()] for a difference of [delta] microseconds. *)
Definition total_seconds (delta : Z) : Z * Z := true_divide delta 1000000.

(** [delta.total_seconds() < seconds] and [> seconds]. *)
Definition total_seconds_lt (delta seconds : Z) : bool :=
  float_lt (total_seconds delta) seconds.

Definition total_seconds_gt (delta seconds : Z) : bool :=
  float_gt (total_seconds delta) seconds.

(** The seconds a [timedelta] can hold, 999999999 days either way, and the
    microseconds since the epoch of [datetime.min] and [datetime.max]. *)
Definition timedelta_min : Z := -86399999913600.
Definition timedelta_max : Z := 86399999999999.
Definition datetime_min : Z := -62135596800000000.
Definition datetime_max : Z := 253402300799999999.

(** [dt.datetime.fromtimestamp(float(v))] for a whole number of seconds;
    numeric text, fractions and time zones are left out. *)
Definition fromtimestamp (v : pyval) : result pyval :=
  match v with
  | PInt z => Ok (PTime (z * 1000000))
  | PStr _ => Raise ValueError
  | _ => Raise TypeError
  end.

(** *** [_default_handle_callback] *)

(** [if value: values[key] = value] *)
Definition set_if_truthy (key : string) (value : pyval) (values : gmap string pyval)
    : gmap string pyval :=
  if truthy value then <[key := value]> values else values.

Definition _default_handle_callback (self : ExternalProvider) (data : gmap string pyval)
    : result (gmap string pyval) :=
  match _oauth_version self with
  | OAUTH1 =>
      let key := dict_get data "oauth_token" in
      let secret := dict_get data "oauth_token_secret" in
      Ok (set_if_truthy "secret" secret (set_if_truthy "key" key ∅))
  | OAUTH2 =>
      let key := dict_get data "access_token" in
      let refresh_token := dict_get data "refresh_token" in
      let expires_at := dict_get data "expires_at" in
      let scopes := dict_get data "scope" in
      let values :=
        set_if_truthy "refresh_token" refresh_token
          (set_if_truthy "scope" scopes (set_if_truthy "key" key ∅)) in
      if truthy expires_at then
        t ← fromtimestamp expires_at; Ok (<["expires_at" := t]> values)
      else Ok values
  end.

(** *** [_set_external_account] *)

(** The row [get_or_create] inserts when the pair is new. *)
Definition blank_account (provider provider_id : string) : ExternalAccount :=
  {| provider := provider;
     provider_id := provider_id;
     provider_name := "";
     oauth_key := None;
     oauth_secret := None;
     refresh_token := None;
     date_last_refreshed := None;
     expires_at := None;
     scopes := [];
     display_name := None;
     profile_url := None |}.

(** The assignments to [self.account] between [get_or_create] and
    [save()]. *)
Definition assign_account (self : ExternalProvider) (acct : ExternalAccount)
    (key : pyval) (info : gmap string pyval) (now : Z) : result ExternalAccount :=
  key ← text_column key;
  secret ← text_column (dict_get info "secret");
  expires ← datetime_column (dict_get info "expires_at");
  refresh ← text_column (dict_get info "refresh_token");
  display ← text_column (dict_get info "display_name");
  profile ← text_column (dict_get info "profile_url");
  Ok {| provider := provider acct;
        provider_id := provider_id acct;
        provider_name := name self;
        oauth_key := key;
        oauth_secret := secret;
        refresh_token := refresh;
        date_last_refreshed := Some now;
        expires_at := expires;
        scopes := scopes acct;
        display_name := display;
        profile_url := profile |}.

(** The outcome and the world it leaves.  An exception raised after
    [get_or_create] leaves the row that call inserted.  A [provider_id]
    that is not text is outside the model, which has the call refuse it
    before it touches the store. *)
Definition _set_external_account (self : ExternalProvider) (w : World) (user : string)
    (info : gmap string pyval) (now : Z) : result bool * World :=
  match info !! "provider_id" with
  | None => (Raise (KeyError "provider_id"), w)
  | Some (PStr pid) =>
      let k := (short_name self, pid) in
      let acct := default (blank_account (short_name self) pid) (accounts w !! k) in
      let created :=
        {| oauth_states := oauth_states w;
           accounts := <[k := acct]> (accounts w);
           user_accounts := user_accounts w |} in
      match info !! "key" with
      | None => (Raise (KeyError "key"), created)
      | Some key =>
          match assign_account self acct key info now with
          | Raise e => (Raise e, created)
          | Ok saved =>
              let owned := default ∅ (user_accounts w !! user) in
              (Ok true,
               {| oauth_states := delete (short_name self) <$> oauth_states w;
                  accounts := <[k := saved]> (accounts w);
                  user_accounts :=
                    if bool_decide (k ∈ owned) then user_accounts w
                    else <[user := {[ k ]} ∪ owned]> (user_accounts w) |})
          end
      end
  | Some _ => (Raise ValidationError, w)
  end.

(** *** [auth_callback] *)

(** The token exchange of the OAuth2 branch: a missing token or an HTTP
    error of the provider becomes a 503. *)
Definition fetch_token (reply : result (gmap string pyval)) : result (gmap string pyval) :=
  match reply with
  | Raise MissingTokenError | Raise RequestsHTTPError => Raise (HTTPError 503)
  | other => other
  end.

(** [args] are the query parameters of the callback request, [reply] is
    what the provider answers to the token exchange, and
    [handle_callback] is the hook of the provider subclass. *)
Definition auth_callback (self : ExternalProvider) (w : World) (user : string)
    (args : gmap string string) (reply : result (gmap string pyval))
    (handle_callback : gmap string pyval → result (gmap string pyval)) (now : Z)
    : result bool * World :=
  if key_in "error" args then (Ok false, w)
  else
    (* make sure the user has temporary credentials for this provider *)
    match oauth_states w ≫= (.!! short_name self) with
    | None => (Raise (PermissionsError "OAuth flow not recognized."), w)
    | Some cached_credentials =>
        let response :=
          match _oauth_version self with
          | OAUTH1 =>
              let request_token := args !! "oauth_token" in
              if bool_decide (cached_credentials !! "token" ≠ request_token)
              then Raise (PermissionsError "Request token does not match")
              else reply
          | OAUTH2 =>
              let state := args !! "state" in
              if bool_decide (cached_credentials !! "state" ≠ state)
              then Raise (PermissionsError "Request token does not match")
              else fetch_token reply
          end in
        match response with
        | Raise e => (Raise e, w)
        | Ok response =>
            match
              info ← _default_handle_callback self response;
              extra ← handle_callback response;
              Ok (extra ∪ info)
            with
            | Raise e => (Raise e, w)
            | Ok info => _set_external_account self w user info now
            end
        end
    end.

(** *** Refreshing *)

(** [_needs_refresh] *)
Definition _needs_refresh (self : ExternalProvider) (now : Z) : result bool :=
  if negb (refresh_time self =? 0) then
    match account self with
    | None => Raise AttributeError
    | Some acct =>
        match expires_at acct with
        | Some expires => Ok (total_seconds_lt (expires - now) (refresh_time self))
        | None => Ok false
        end
    end
  else Ok false.

(** [has_expired_credentials] *)
Definition has_expired_credentials (self : ExternalProvider) (now : Z) : result bool :=
  if negb (expiry_time self =? 0) then
    match account self with
    | None => Raise AttributeError
    | Some acct =>
        match expires_at acct with
        | Some expires => Ok (total_seconds_gt (now - expires) (expiry_time self))
        | None => Ok false
        end
    end
  else Ok false.

(** [token[key]] *)
Definition getitem (token : gmap string pyval) (key : string) : result pyval :=
  match token !! key with
  | Some v => Ok v
  | None => Raise (KeyError key)
  end.

(** The default of [resp_expiry_fn]: [now] plus [expires_in] seconds,
    for a whole number of seconds.  The [timedelta] and the sum overflow
    outside their ranges.  An [expires_in] given as text is outside the
    model, which has [float] refuse it. *)
Definition default_expiry_fn (now : Z) (token : gmap string pyval) : result pyval :=
  v ← getitem token "expires_in";
  match v with
  | PInt z =>
      if (timedelta_min <=? z) && (z <=? timedelta_max)
         && (datetime_min <=? now + z * 1000000) && (now + z * 1000000 <=? datetime_max)
      then Ok (PTime (now + z * 1000000))
      else Raise OverflowError
  | PStr _ => Raise ValueError
  | _ => Raise TypeError
  end.

(** The provider refusing the refresh. *)
Definition is_rejection (e : exn) : bool :=
  match e with
  | AccessDeniedError | InvalidGrantError | TokenExpiredError => true
  | _ => false
  end.

(** Assignments to the fields of [self.account] in memory.  The record
    holds text in a text column and a datetime in a datetime column; a
    value of another type, which [save()] will refuse, leaves the field of
    the record as it was. *)
Definition set_oauth_key (v : pyval) (acct : ExternalAccount) : ExternalAccount :=
  match text_column v with
  | Ok key =>
      {| provider := provider acct;
         provider_id := provider_id acct;
         provider_name := provider_name acct;
         oauth_key := key;
         oauth_secret := oauth_secret acct;
         refresh_token := refresh_token acct;
         date_last_refreshed := date_last_refreshed acct;
         expires_at := expires_at acct;
         scopes := scopes acct;
         display_name := display_name acct;
         profile_url := profile_url acct |}
  | Raise _ => acct
  end.

Definition set_refresh_token (v : pyval) (acct : ExternalAccount) : ExternalAccount :=
  match text_column v with
  | Ok refresh =>
      {| provider := provider acct;
         provider_id := provider_id acct;
         provider_name := provider_name acct;
         oauth_key := oauth_key acct;
         oauth_secret := oauth_secret acct;
         refresh_token := refresh;
         date_last_refreshed := date_last_refreshed acct;
         expires_at := expires_at acct;
         scopes := scopes acct;
         display_name := display_name acct;
         profile_url := profile_url acct |}
  | Raise _ => acct
  end.

Definition set_expires_at (v : pyval) (acct : ExternalAccount) : ExternalAccount :=
  match datetime_column v with
  | Ok expires =>
      {| provider := provider acct;
         provider_id := provider_id acct;
         provider_name := provider_name acct;
         oauth_key := oauth_key acct;
         oauth_secret := oauth_secret acct;
         refresh_token := refresh_token acct;
         date_last_refreshed := date_last_refreshed acct;
         expires_at := expires;
         scopes := scopes acct;
         display_name := display_name acct;
         profile_url := profile_url acct |}
  | Raise _ => acct
  end.

Definition set_date_last_refreshed (now : Z) (acct : ExternalAccount) : ExternalAccount :=
  {| provider := provider acct;
     provider_id := provider_id acct;
     provider_name := provider_name acct;
     oauth_key := oauth_key acct;
     oauth_secret := oauth_secret acct;
     refresh_token := refresh_token acct;
     date_last_refreshed := Some now;
     expires_at := expires_at acct;
     scopes := scopes acct;
     display_name := display_name acct;
     profile_url := profile_url acct |}.

(** The four assignments to [self.account] after the provider's reply and
    the [save()] that follows, one statement after the other.  The first
    component is the row as saved, or the exception; the second is
    [self.account] as it is in memory at that point: an assignment made
    before an exception stays, though nothing was saved. *)
Definition store_refreshed (acct : ExternalAccount) (token : gmap string pyval)
    (resp_auth_token_key resp_refresh_token_key : string)
    (resp_expiry_fn : gmap string pyval → result pyval) (now : Z)
    : result ExternalAccount * ExternalAccount :=
  (* self.account.oauth_key = token[resp_auth_token_key] *)
  match getitem token resp_auth_token_key with
  | Raise e => (Raise e, acct)
  | Ok key =>
      let acct := set_oauth_key key acct in
      (* self.account.refresh_token = token[resp_refresh_token_key] *)
      match getitem token resp_refresh_token_key with
      | Raise e => (Raise e, acct)
      | Ok refresh =>
          let acct := set_refresh_token refresh acct in
          (* self.account.expires_at = resp_expiry_fn(token) *)
          match resp_expiry_fn token with
          | Raise e => (Raise e, acct)
          | Ok expires =>
              let acct := set_expires_at expires acct in
              (* self.account.date_last_refreshed = timezone.now() *)
              let acct := set_date_last_refreshed now acct in
              (* self.account.save() *)
              match
                _ ← text_column key; _ ← text_column refresh; datetime_column expires
              with
              | Raise e => (Raise e, acct)
              | Ok _ => (Ok acct, acct)
              end
          end
      end
  end.

(** [refresh_oauth_key]; [reply] is what the provider answers to the
    refresh request.  [Ok false] is the "not refreshed" outcome.  The
    provider that comes back carries [self.account] as it is in memory. *)
Definition refresh_oauth_key (self : ExternalProvider) (now : Z) (force : bool)
    (resp_auth_token_key resp_refresh_token_key : string)
    (resp_expiry_fn : option (gmap string pyval → result pyval))
    (reply : result (gmap string pyval)) : result bool * ExternalProvider :=
  match account self with
  | None => (Ok false, self)
  | Some acct =>
      (* Ensure this is an authenticated Provider that uses token refreshing *)
      if negb (truthy_text (auto_refresh_url self)) then (Ok false, self)
      (* Ensure this Provider is for a valid addon *)
      else if negb (truthy_text (client_id self) && truthy_text (client_secret self))
      then (Ok false, self)
      else
        (* Ensure a refresh is needed *)
        match (if force then Ok true else _needs_refresh self now) with
        | Raise e => (Raise e, self)
        | Ok false => (Ok false, self)
        | Ok true =>
            match has_expired_credentials self now with
            | Raise e => (Raise e, self)
            | Ok expired =>
                if expired && negb force then (Ok false, self)
                else
                  let resp_expiry_fn := default (default_expiry_fn now) resp_expiry_fn in
                  match reply with
                  | Raise e =>
                      if is_rejection e then
                        if negb force then (Ok false, self) else (Raise e, self)
                      else (Raise e, self)
                  | Ok token =>
                      match store_refreshed acct token resp_auth_token_key
                              resp_refresh_token_key resp_expiry_fn now with
                      | (Raise e, memory) => (Raise e, set_account memory self)
                      | (Ok saved, _) => (Ok true, set_account saved self)
                      end
                  end
            end
        end
  end.

End Provider.

(** ** Vocabulary of the specification and concrete scenarios *)

Module Scenarios.
Import Ledger NodeBinding Provider.

(** The key under which a pending handshake keeps the value the callback
    must repeat, and the query parameter that repeats it. *)
Definition pending_key (v : oauth_version) : string :=
  match v with OAUTH1 => "token" | OAUTH2 => "state" end.

Definition callback_key (v : oauth_version) : string :=
  match v with OAUTH1 => "oauth_token" | OAUTH2 => "state" end.

(** A user who owns the Box account [a1] and has granted nothing yet. *)
Definition fresh_ledger : UserSettings :=
  {| addon := "box";
     Ledger.owner := "u1";
     owner_external_accounts := {[ "a1" := "box" ]};
     oauth_grants := ∅ |}.

(** The two ledgers of the merge conflict: both hold [(r1, a1)], each with
    its own value under the key [k]. *)
Definition dest_ledger : UserSettings :=
  {| addon := "box";
     Ledger.owner := "u1";
     owner_external_accounts := {[ "a1" := "box" ]};
     oauth_grants := {[ "r1" := {[ "a1" := {[ "k" := PStr "dest" ]} ]} ]} |}.

Definition source_ledger : UserSettings :=
  {| addon := "box";
     Ledger.owner := "u2";
     owner_external_accounts := {[ "a1" := "box" ]};
     oauth_grants := {[ "r1" := {[ "a1" := {[ "k" := PStr "source" ]} ]} ]} |}.

(** A source whose metadata key has two characters, against a destination
    that holds the pair without metadata. *)
Definition bare_dest_ledger : UserSettings :=
  {| addon := "box";
     Ledger.owner := "u1";
     owner_external_accounts := {[ "a1" := "box" ]};
     oauth_grants := {[ "r1" := {[ "a1" := ∅ ]} ]} |}.

Definition id_source_ledger : UserSettings :=
  {| addon := "box";
     Ledger.owner := "u2";
     owner_external_accounts := {[ "a1" := "box" ]};
     oauth_grants := {[ "r1" := {[ "a1" := {[ "id" := PStr "source" ]} ]} ]} |}.

(** A ledger with grants for [a1] on a deleted node [r1] and a live node
    [r2], and the node table that says so. *)
Definition two_node_ledger : UserSettings :=
  {| addon := "box";
     Ledger.owner := "u1";
     owner_external_accounts := {[ "a1" := "box" ]};
     oauth_grants :=
       {[ "r1" := {[ "a1" := ∅ ]};
          "r2" := {[ "a1" := {[ "folder" := PStr "5" ]} ]} ]} |}.

Definition two_nodes : gmap string bool := {[ "r1" := true; "r2" := false ]}.

(** A ledger in which the node [r2] may use two accounts. *)
Definition two_account_ledger : UserSettings :=
  {| addon := "box";
     Ledger.owner := "u1";
     owner_external_accounts := {[ "a1" := "box"; "a2" := "box" ]};
     oauth_grants :=
       {[ "r2" := {[ "a1" := {[ "folder" := PStr "5" ]};
                     "a2" := {[ "folder" := PStr "7" ]} ]} ]} |}.

(** A node [r1] bound to [a1] under the grant of its owner [u1]. *)
Definition granting_ledger : UserSettings :=
  {| addon := "box";
     Ledger.owner := "u1";
     owner_external_accounts := {[ "a1" := "box" ]};
     oauth_grants := {[ "r1" := {[ "a1" := {[ "folder" := PStr "5" ]} ]} ]} |}.

Definition bound_node : NodeSettings :=
  {| NodeBinding.owner := "r1";
     user_settings := Some granting_ledger;
     external_account := Some "a1";
     folder_id := Some "5";
     folder_name := Some "Documents";
     folder_path := Some "/Documents" |}.





(** The node settings of [r1] and [r2], both using [a1]. *)
Definition attached_addons : gmap string NodeSettings :=
  {[ "r1" := bound_node;
     "r2" := {| NodeBinding.owner := "r2";
                user_settings := Some two_node_ledger;
                external_account := Some "a1";
                folder_id := Some "5";
                folder_name := None;
                folder_path := None |} ]}.

(** The Box provider with an account that expires at second 1000. *)
Definition box_account : ExternalAccount :=
  {| provider := "box";
     provider_id := "42";
     provider_name := "Box";
     oauth_key := Some "T0";
     oauth_secret := Some "S0";
     refresh_token := Some "R0";
     date_last_refreshed := Some 0;
     expires_at := Some 1000000000;
     scopes := [];
     display_name := Some "Ada";
     profile_url := Some "https://app.box.com/profile/42" |}.

Definition box_provider : ExternalProvider :=
  {| _oauth_version := OAUTH2;
     name := "Box";
     short_name := "box";
     client_id := Some "client";
     client_secret := Some "secret";
     auto_refresh_url := Some "https://api.box.com/oauth2/token";
     refresh_time := 300;
     expiry_time := 3600;
     account := Some box_account |}.

(** An account that expires some 634 years after the epoch, with a
    provider whose refresh window is a microsecond longer than that. *)
Definition far_account : ExternalAccount :=
  {| provider := "box";
     provider_id := "42";
     provider_name := "Box";
     oauth_key := Some "T0";
     oauth_secret := Some "S0";
     refresh_token := Some "R0";
     date_last_refreshed := Some 0;
     expires_at := Some 19999999999999999;
     scopes := [];
     display_name := Some "Ada";
     profile_url := Some "https://app.box.com/profile/42" |}.

Definition far_provider : ExternalProvider :=
  {| _oauth_version := OAUTH2;
     name := "Box";
     short_name := "box";
     client_id := Some "client";
     client_secret := Some "secret";
     auto_refresh_url := Some "https://api.box.com/oauth2/token";
     refresh_time := 20000000000;
     expiry_time := 3600;
     account := Some far_account |}.

(** A session with a pending Box handshake and a store that already holds
    the account. *)
Definition pending_world : World :=
  {| oauth_states := Some {[ "box" := {[ "state" := "s1" ]} ]};
     accounts := {[ ("box", "42") := box_account ]};
     user_accounts := {[ "u1" := {[ ("box", "42") ]} ]} |}.

(** The query of a callback that reports an error and carries a [state]
    other than the pending one. *)
Definition forged_error_args : gmap string string :=
  {[ "state" := "forged"; "error" := "access_denied" ]}.

(** A normalized payload that carries the key only. *)
Definition key_only_info : gmap string pyval :=
  {[ "provider_id" := PStr "42"; "key" := PStr "T1" ]}.

(** The hook of the Box provider on a stubbed profile. *)
Definition box_hook (response : gmap string pyval) : result (gmap string pyval) :=
  Ok {[ "provider_id" := PStr "42"; "display_name" := PStr "Ada" ]}.

End Scenarios.

(** ** Beginning a handshake: [ExternalProvider.auth_url] *)

Module Handshake.
Import Provider.

Definition set_oauth_states (states : gmap string (gmap string string)) (w : World) : World :=
  {| oauth_states := Some states;
     accounts := accounts w;
     user_accounts := user_accounts w |}.

(** The temporary credentials kept for an OAuth1 flow:
    [{'token': response.get('oauth_token'), 'secret':
    response.get('oauth_token_secret')}].  An entry bound to [None] is left
    out, which [.get], the only way the entries are read, cannot tell from
    an absent one. *)
Definition temporary_credentials (response : gmap string string) : gmap string string :=
  from_option (λ secret, <["secret" := secret]>) id (response !! "oauth_token_secret")
    (from_option (λ token, <["token" := token]>) id (response !! "oauth_token") ∅).

(** [auth_url].  [url] and [state] are what the OAuth library answers to
    [authorization_url], [request_token] what the provider answers to
    [fetch_request_token] (OAuth1 only).  The session is saved at the end,
    so an exception leaves it as it was. *)
Definition auth_url (self : ExternalProvider) (w : World) (url state : string)
    (request_token : result (gmap string string)) : result string * World :=
  (* create a dict on the session object if it's not already there *)
  let states := default ∅ (oauth_states w) in
  match _oauth_version self with
  | OAUTH2 =>
      (* save state token to the session for confirmation in the callback *)
      (Ok url, set_oauth_states (<[short_name self := {[ "state" := state ]}]> states) w)
  | OAUTH1 =>
      match request_token with
      | Raise e => (Raise e, w)
      | Ok response =>
          (* store them in the session for use in the callback *)
          (Ok url,
           set_oauth_states (<[short_name self := temporary_credentials response]> states) w)
      end
  end.

End Handshake.

(** ** The life of a node binding besides forking *)

Module NodeLifecycle.
Import Ledger NodeBinding Provider.

(** [clear_auth]: disconnect the node settings from the user settings,
    without removing the node's permission in the user's settings. *)
Definition clear_auth (self : NodeSettings) : NodeSettings :=
  {| NodeBinding.owner := NodeBinding.owner self;
     user_settings := None;
     external_account := None;
     folder_id := folder_id self;
     folder_name := folder_name self;
     folder_path := folder_path self |}.

(** [deauthorize] of the Box node settings: with [add_log] the call stops
    at the logger, after the folder was cleared in memory and before
    anything is saved. *)
Definition deauthorize (self : NodeSettings) (add_log : bool) : result NodeSettings :=
  let cleared := clear_settings self in
  if add_log then _ ← nodelogger_log; Ok (clear_auth cleared)
  else Ok (clear_auth cleared).

(** [configured] *)
Definition configured (self : NodeSettings) : bool :=
  complete self
  && (truthy_text (folder_id self) || truthy_text (folder_name self)
      || truthy_text (folder_path self)).

(** What [after_remove_contributor] leaves: the binding, the user-settings
    row it saved (if any), and whether it returns a message; the text of
    the message, put together from display names, is not modelled. *)
Record Removed : Type := {
  removed_binding : NodeSettings;
  removed_settings : option UserSettings;
  message_returned : bool;
}.

(** [after_remove_contributor]; [removed] is the contributor taken off the
    node. *)
Definition after_remove_contributor (self : NodeSettings) (removed : string)
    : result Removed :=
  match user_settings self with
  | Some us =>
      if bool_decide (Ledger.owner us = removed) then
        (* Delete OAuth tokens *)
        match oauth_grants us !! NodeBinding.owner self with
        | None => Raise (KeyError (NodeBinding.owner self))
        | Some node_grants =>
            match external_account self with
            | None => Raise AttributeError
            | Some acct =>
                match node_grants !! acct with
                | None => Raise (KeyError acct)
                | Some _ =>
                    Ok {| removed_binding := clear_auth self;
                          removed_settings :=
                            Some (set_oauth_grants
                                    (<[NodeBinding.owner self := delete acct node_grants]>
                                       (oauth_grants us)) us);
                          message_returned := true |}
                end
            end
        end
      else Ok {| removed_binding := self; removed_settings := None; message_returned := false |}
  | None => Ok {| removed_binding := self; removed_settings := None; message_returned := false |}
  end.

(** [node.get_addon(...)] is there and its [external_account] is the
    account.  [addons] gives the node settings of this addon per node. *)
Definition uses_account (addons : gmap string NodeSettings) (acct node : string) : bool :=
  match addons !! node with
  | Some node_settings => bool_decide (external_account node_settings = Some acct)
  | None => false
  end.

(** [get_attached_nodes]: the nodes with a grant for the account whose own
    settings use that account. *)
Definition get_attached_nodes (self : UserSettings) (nodes : gmap string bool)
    (addons : gmap string NodeSettings) (acct : string) : result (list string) :=
  granted ← get_nodes_with_oauth_grants self nodes acct;
  Ok (List.filter (uses_account addons acct) granted).

End NodeLifecycle.

(** ** Encrypted text columns: [encrypt_string] and [decrypt_string] *)

Module Encryption.

(** The values the two functions are applied to: [None], a [str] or
    [bytes].  Text and its UTF-8 encoding are the same character string, so
    that [encode] and [decode] only change the tag. *)
Inductive text : Type :=
| TNone
| TStr (s : string)
| TBytes (b : string).

Definition truthy_value (v : text) : bool :=
  match v with
  | TNone => false
  | TStr s | TBytes s => negb (String.eqb s "")
  end.

(** [ensure_bytes] *)
Definition ensure_bytes (v : text) : result string :=
  match v with
  | TBytes b => Ok b
  | TStr s => Ok s
  | TNone => Raise AttributeError
  end.

(** [ensure_str] *)
Definition ensure_str (v : text) : text :=
  match v with
  | TBytes b => TStr b
  | other => other
  end.

(** [value[n:]] *)
Fixpoint string_drop (n : nat) (s : string) : string :=
  match n, s with
  | O, _ => s
  | S n, String _ rest => string_drop n rest
  | S _, EmptyString => EmptyString
  end.

Section Cipher.

(** [jwe.encrypt] and [jwe.decrypt] under the fixed key; decryption raises
    on what is not a ciphertext. *)
Variable jwe_encrypt : string → string.
Variable jwe_decrypt : string → result string.

(** [encrypt_string] *)
Definition encrypt_string (value : text) (prefix : string) : result text :=
  if truthy_value value then
    b ← ensure_bytes value;
    if negb (String.eqb b "") && negb (String.prefix prefix b)
    then Ok (TStr (String.append prefix (jwe_encrypt b)))
    else Ok (TBytes b)
  else Ok value.

(** [decrypt_string] *)
Definition decrypt_string (value : text) (prefix : string) : result text :=
  if truthy_value value then
    b ← ensure_bytes value;
    if String.prefix prefix b
    then plain ← jwe_decrypt (string_drop (String.length prefix) b); Ok (TStr plain)
    else Ok (TBytes b)
  else Ok value.

End Cipher.

(** The characters of a value, whatever its tag. *)
Definition characters (v : text) : option string :=
  match v with
  | TNone => None
  | TStr s | TBytes s => Some s
  end.

End Encryption.

(** ** Credential formats: [CredentialsFormats] *)

Module Formats.

Inductive CredentialsFormats : Type :=
| UNSPECIFIED
| OAUTH2
| ACCESS_KEY_SECRET_KEY
| USERNAME_PASSWORD
| PERSONAL_ACCESS_TOKEN
| OAUTH1A.

Definition value (f : CredentialsFormats) : Z :=
  match f with
  | UNSPECIFIED => 0
  | OAUTH2 => 1
  | ACCESS_KEY_SECRET_KEY => 2
  | USERNAME_PASSWORD => 3
  | PERSONAL_ACCESS_TOKEN => 4
  | OAUTH1A => 5
  end.

(** The classes of [addon_toolkit.credentials] the formats refer to. *)
Inductive credentials_class : Type :=
| AccessTokenCredentials
| OAuth1TokenCredentials
| AccessKeySecretKeyCredentials
| UsernamePasswordCredentials.

(** The property [dataclass]. *)
Definition dataclass (self : CredentialsFormats) : result credentials_class :=
  match self with
  | OAUTH2 => Ok AccessTokenCredentials
  | OAUTH1A => Ok OAuth1TokenCredentials
  | ACCESS_KEY_SECRET_KEY => Ok AccessKeySecretKeyCredentials
  | PERSONAL_ACCESS_TOKEN => Ok AccessTokenCredentials
  | USERNAME_PASSWORD => Ok UsernamePasswordCredentials
  | UNSPECIFIED => Raise ValueError
  end.

End Formats.

(** ** Orderings on grant mappings *)

Module LedgerOrder.
Import Ledger.

(** Every account of [d] is an account of [d'], with at least the same
    metadata. *)
Definition entries_le (d d' : gmap string metadata) : Prop :=
  ∀ a m, d !! a = Some m → ∃ m', d' !! a = Some m' ∧ m ⊆ m'.

(** The same, resource by resource. *)
Definition grants_le (g g' : grants) : Prop :=
  ∀ n d, g !! n = Some d → ∃ d', g' !! n = Some d' ∧ entries_le d d'.

End LedgerOrder.

(** ** Properties of the grant ledger *)

Module LedgerFacts.
Import Ledger Scenarios.

Lemma key_in_true {V} (k : string) (d : gmap string V) :
  key_in k d = true ↔ is_Some (d !! k).
Proof. unfold key_in. apply bool_decide_eq_true. Qed.

Lemma key_in_false {V} (k : string) (d : gmap string V) :
  key_in k d = false ↔ d !! k = None.
Proof.
  unfold key_in. rewrite bool_decide_eq_false, eq_None_not_Some. done.
Qed.

Lemma setitems_union (items : list (string * pyval)) (m : metadata) :
  NoDup items.*1 → setitems m items = list_to_map items ∪ m.
Proof.
  revert m. induction items as [|[k v] items IH]; intros m Hnd; simpl.
  - by rewrite (left_id_L ∅ (∪)).
  - apply NoDup_cons in Hnd as [Hk Hnd].
    unfold setitems in IH |- *. simpl. rewrite IH by done.
    rewrite <- insert_union_r by (by apply not_elem_of_list_to_map_1).
    by rewrite insert_union_l.
Qed.

Lemma setitems_map_to_list (md m : metadata) :
  setitems m (map_to_list md) = md ∪ m.
Proof.
  rewrite setitems_union by apply NoDup_fst_map_to_list.
  by rewrite list_to_map_to_list.
Qed.

Lemma update_metadata_insert (items : list (string * pyval)) (g : grants)
    (node acct : string) (n : gmap string metadata) (m : metadata) :
  g !! node = Some n → n !! acct = Some m →
  update_metadata g node acct items
  = <[node := <[acct := setitems m items]> n]> g.
Proof.
  revert g n m. induction items as [|[k v] items IH]; intros g n m Hn Hm; simpl.
  - unfold setitems; simpl. rewrite (insert_id n acct m Hm). by rewrite insert_id.
  - assert (alter (alter (insert k v) acct) node g
            = <[node := <[acct := <[k:=v]> m]> n]> g) as ->.
    { apply map_eq; intros i. rewrite lookup_alter, lookup_insert.
      case_decide; subst; [|done]. rewrite Hn; simpl. f_equal.
      apply map_eq; intros j. rewrite lookup_alter, lookup_insert.
      case_decide; subst; [|done]. by rewrite Hm. }
    erewrite IH; [|apply lookup_insert_eq|apply lookup_insert_eq].
    by rewrite !insert_insert_eq.
Qed.

(** [grant_oauth_access] in closed form: an owned account is granted,
    and the supplied metadata is laid over what the pair already had. *)
Lemma grant_oauth_access_owned (self : UserSettings) (node acct : string)
    (md : option metadata) :
  is_Some (owner_external_accounts self !! acct) →
  grant_oauth_access self node acct md
  = Ok (set_oauth_grants
          (<[node := <[acct := default ∅ md ∪ default ∅ (grant_entry self node acct)]>
                       (default ∅ (oauth_grants self !! node))]> (oauth_grants self))
          self).
Proof.
  intros Hown. unfold grant_oauth_access, grant_entry.
  apply key_in_true in Hown. rewrite Hown. simpl. do 2 f_equal.
  destruct (oauth_grants self !! node) as [n|] eqn:Hn; simpl.
  - rewrite (proj2 (key_in_true node _)) by (by rewrite Hn). simpl.
    rewrite Hn. simpl.
    destruct (n !! acct) as [m|] eqn:Hm; simpl.
    + rewrite (proj2 (key_in_true acct _)) by (by rewrite Hm). simpl.
      erewrite update_metadata_insert by done.
      by rewrite setitems_map_to_list.
    + rewrite (proj2 (key_in_false acct _)) by done. simpl.
      erewrite update_metadata_insert;
        [|by rewrite lookup_alter_eq, Hn|apply lookup_insert_eq].
      rewrite setitems_map_to_list, insert_insert_eq.
      apply map_eq; intros i. rewrite !lookup_insert, lookup_alter.
      by case_decide.
  - rewrite (proj2 (key_in_false node _)) by done. simpl.
    rewrite lookup_insert_eq. simpl.
    rewrite (proj2 (key_in_false acct _)) by apply lookup_empty. simpl.
    erewrite update_metadata_insert;
      [|by rewrite lookup_alter_eq, lookup_insert_eq|apply lookup_insert_eq].
    rewrite setitems_map_to_list, insert_insert_eq.
    apply map_eq; intros i. rewrite !lookup_insert, lookup_alter.
    repeat case_decide; try done. by rewrite lookup_insert_ne.
Qed.

Lemma grant_entry_after_grant (self : UserSettings) (node acct : string)
    (md : option metadata) :
  is_Some (owner_external_accounts self !! acct) →
  ∃ s, grant_oauth_access self node acct md = Ok s
       ∧ owner_external_accounts s = owner_external_accounts self
       ∧ grant_entry s node acct
         = Some (default ∅ md ∪ default ∅ (grant_entry self node acct)).
Proof.
  intros Hown. eexists. split; [by apply grant_oauth_access_owned|].
  split; [done|]. unfold grant_entry at 1. simpl.
  rewrite lookup_insert_eq. simpl. by rewrite lookup_insert_eq.
Qed.

Lemma verify_items_true (granted : metadata) (items : list (string * pyval)) :
  verify_items granted items = true
  ↔ ∀ k v, (k, v) ∈ items → granted !! k = Some v.
Proof.
  induction items as [|[k v] items IH]; simpl.
  - split; [|done]. intros _ k v Hin. by apply elem_of_nil in Hin.
  - destruct (decide (granted !! k = Some v)) as [Hkv|Hkv].
    + rewrite (proj2 (key_in_true k granted)) by (by rewrite Hkv).
      rewrite bool_decide_true by done. simpl. rewrite IH. split.
      * intros H k' v' [[= -> ->]|Hin]%elem_of_cons; auto.
      * intros H k' v' Hin. apply H. by apply elem_of_cons; right.
    + rewrite (bool_decide_false _ Hkv), orb_true_r. split; [done|].
      intros H. destruct Hkv. apply H. by apply elem_of_cons; left.
Qed.

(** [verify_oauth_access] holds exactly when the pair has an entry that
    contains every required key with the required value. *)
Lemma verify_oauth_access_true (self : UserSettings) (node acct : string)
    (md : option metadata) :
  verify_oauth_access self node acct md = true
  ↔ ∃ granted, grant_entry self node acct = Some granted
               ∧ ∀ k v, default ∅ md !! k = Some v → granted !! k = Some v.
Proof.
  unfold verify_oauth_access.
  destruct (grant_entry self node acct) as [granted|].
  - rewrite verify_items_true. split.
    + intros H. exists granted. split; [done|]. intros k v Hkv.
      by apply H, elem_of_map_to_list.
    + intros (g & [= <-] & H) k v Hin. by apply H, elem_of_map_to_list.
  - split; [done|]. by intros (g & ? & _).
Qed.


(** C3: without required metadata [verify_oauth_access] says whether the
    pair has a grant entry at all; with required metadata it says whether
    the entry exists and holds every required key with an equal value.
    After granting [{folder: "5"}], the pair verifies bare and for
    [{folder: "5"}], and does not verify for [{folder: "6"}]. *)
Theorem verify_oauth_access_scoping (self : UserSettings) (r a : string) (m : metadata) :
  (verify_oauth_access self r a None = true ↔ is_Some (grant_entry self r a))
  ∧ (verify_oauth_access self r a (Some m) = true
     ↔ ∃ granted, grant_entry self r a = Some granted
                  ∧ ∀ k v, m !! k = Some v → granted !! k = Some v)
  ∧ (is_Some (owner_external_accounts self !! a) →
     ∃ s, grant_oauth_access self r a (Some {[ "folder" := PStr "5" ]}) = Ok s
          ∧ verify_oauth_access s r a None = true
          ∧ verify_oauth_access s r a (Some {[ "folder" := PStr "5" ]}) = true
          ∧ verify_oauth_access s r a (Some {[ "folder" := PStr "6" ]}) = false).
Proof.
  split; [|split].
  - rewrite verify_oauth_access_true. simpl. split.
    + intros (g & -> & _). eauto.
    + intros [g Hg]. exists g. split; [done|]. intros k v. by rewrite lookup_empty.
  - apply verify_oauth_access_true.
  - intros Hown.
    destruct (grant_entry_after_grant self r a (Some {[ "folder" := PStr "5" ]}) Hown)
      as (s & Hs & _ & He).
    simpl in He. exists s. split; [done|].
    assert (∀ g : metadata, ({[ "folder" := PStr "5" ]} ∪ g) !! "folder" = Some (PStr "5"))
      as Hfolder.
    { intros g. apply lookup_union_Some_l, lookup_singleton_eq. }
    split; [|split].
    + apply verify_oauth_access_true. eexists. split; [done|].
      intros k v. simpl. by rewrite lookup_empty.
    + apply verify_oauth_access_true. eexists. split; [done|].
      simpl. intros k v [<- <-]%lookup_singleton_Some. apply Hfolder.
    + apply not_true_is_false. intros (g & Hg & Hreq)%verify_oauth_access_true.
      rewrite He in Hg. injection Hg as <-.
      specialize (Hreq "folder" (PStr "6")). simpl in Hreq.
      rewrite lookup_singleton_eq, Hfolder in Hreq. by specialize (Hreq eq_refl).
Qed.

(** *** Revocation *)

Lemma nodes_with_grants_loop_elem (nodes : gmap string bool) (acct : string)
    (items : list (string * gmap string metadata)) (yielded : list string) :
  nodes_with_grants_loop nodes acct items = Ok yielded →
  ∀ r, r ∈ yielded
       ↔ ∃ g, (r, g) ∈ items ∧ is_Some (g !! acct) ∧ nodes !! r = Some false.
Proof.
  revert yielded. induction items as [|[n g] items IH]; intros yielded; simpl.
  - intros [= <-] r. split; [by intros ?%elem_of_nil|].
    by intros (? & ?%elem_of_nil & _).
  - destruct (key_in acct g) eqn:Hin.
    + destruct (nodes !! n) as [is_deleted|] eqn:Hn; [|done].
      destruct (nodes_with_grants_loop nodes acct items) as [tl|] eqn:Hloop; [|done].
      simpl. intros [= <-] r. specialize (IH tl eq_refl r).
      apply key_in_true in Hin.
      destruct is_deleted; simpl.
      * rewrite IH. split.
        -- intros (g' & ? & ? & ?). exists g'. split; [by apply elem_of_cons; right|done].
        -- intros (g' & [[= -> ->]|?]%elem_of_cons & ? & ?); [congruence|eauto].
      * rewrite elem_of_cons, IH. split.
        -- intros [->|(g' & ? & ? & ?)].
           ++ exists g. split; [by apply elem_of_cons; left|done].
           ++ exists g'. split; [by apply elem_of_cons; right|done].
        -- intros (g' & [[= -> ->]|?]%elem_of_cons & ? & ?); [by left|right; eauto].
    + intros Hloop r. rewrite (IH _ Hloop r).
      apply key_in_false in Hin. split.
      * intros (g' & ? & ? & ?). exists g'. split; [by apply elem_of_cons; right|done].
      * intros (g' & [[= -> ->]|?]%elem_of_cons & [? Hg] & ?); [congruence|eauto].
Qed.

Lemma nodes_with_grants_loop_total (nodes : gmap string bool) (acct : string)
    (items : list (string * gmap string metadata)) :
  (∀ r g, (r, g) ∈ items → is_Some (g !! acct) → is_Some (nodes !! r)) →
  ∃ yielded, nodes_with_grants_loop nodes acct items = Ok yielded.
Proof.
  induction items as [|[n g] items IH]; intros Hload; simpl; [eauto|].
  destruct IH as [tl Htl].
  { intros r g' Hin. apply Hload. by apply elem_of_cons; right. }
  rewrite Htl. destruct (key_in acct g) eqn:Hin; [|eauto].
  destruct (Hload n g) as [d ->]; [by apply elem_of_cons; left|by apply key_in_true|].
  simpl. eauto.
Qed.

Lemma grant_entry_revoked (self : UserSettings) (acct r : string) :
  grant_entry (set_oauth_grants (delete acct <$> oauth_grants self) self) r acct = None.
Proof.
  unfold grant_entry. simpl. rewrite lookup_fmap.
  destruct (oauth_grants self !! r); simpl; [apply lookup_delete_eq|done].
Qed.

(** C4, as the code has it: a revocation asks to deauthorize exactly the
    resources that hold a grant for the account and are not deleted, and
    afterwards no resource verifies for the account. *)
Theorem revoke_oauth_access_complete (self : UserSettings) (nodes : gmap string bool)
    (a : string) (users : gset string) (u : string) :
  (∀ r g, oauth_grants self !! r = Some g → is_Some (g !! a) → is_Some (nodes !! r)) →
  ∃ out, revoke_oauth_access self nodes a users u = Ok out
    ∧ (∀ r, r ∈ deauthorized out
            ↔ is_Some (grant_entry self r a) ∧ nodes !! r = Some false)
    ∧ (∀ r md, verify_oauth_access (revoked_settings out) r a md = false).
Proof.
  intros Hload. unfold revoke_oauth_access, get_nodes_with_oauth_grants.
  destruct (nodes_with_grants_loop_total nodes a (map_to_list (oauth_grants self)))
    as [yielded Hy].
  { intros r g Hin. apply Hload. by apply elem_of_map_to_list. }
  rewrite Hy. simpl. eexists. split; [done|]. simpl. split.
  - intros r. rewrite (nodes_with_grants_loop_elem _ _ _ _ Hy r).
    unfold grant_entry. split.
    + intros (g & Hin%elem_of_map_to_list & Hg & Hn). by rewrite Hin.
    + intros [Hg Hn]. destruct (oauth_grants self !! r) as [g|] eqn:Hr.
      * exists g. split; [by apply elem_of_map_to_list|done].
      * simpl in Hg. by destruct Hg.
  - intros r md. unfold verify_oauth_access. by rewrite grant_entry_revoked.
Qed.

(** C10: a revocation keeps every resource key of the grant mapping and
    only drops the account from each resource's entry, so a resource whose
    single grant was for that account stays, mapped to an empty mapping. *)
Theorem revoke_oauth_access_keeps_resources (self : UserSettings)
    (nodes : gmap string bool) (a : string) (users : gset string) (u : string)
    (out : Revoked) :
  revoke_oauth_access self nodes a users u = Ok out →
  dom (oauth_grants (revoked_settings out)) = dom (oauth_grants self)
  ∧ (∀ r, oauth_grants (revoked_settings out) !! r
          = delete a <$> oauth_grants self !! r)
  ∧ (∀ r m, oauth_grants self !! r = Some {[ a := m ]} →
            oauth_grants (revoked_settings out) !! r = Some ∅).
Proof.
  unfold revoke_oauth_access.
  destruct (get_nodes_with_oauth_grants self nodes a) as [visited|]; [|done].
  simpl. intros [= <-]. simpl. split; [apply dom_fmap_L|]. split.
  - intros r. apply lookup_fmap.
  - intros r m Hr. rewrite lookup_fmap, Hr. simpl. by rewrite delete_singleton_eq.
Qed.

(** *** Merging *)

(** C1 (code defect): on the conflict example of the specification the
    merge does not keep the destination's value.  The innermost loop,
    [for k, v in meta], runs over the keys of [meta] instead of its items,
    so the one-character key [k] cannot be unpacked and the call raises
    [ValueError] before either row is saved. *)
Theorem merge_conflicting_metadata_raises :
  merge dest_ledger source_ledger = Raise ValueError.
Proof. vm_compute. reflexivity. Qed.

(** The same loop on a key of two characters: the key [id] is split into
    the key [i] and the value [d], and the source's own value is lost. *)
Lemma merge_two_character_key_is_split :
  ∃ dest source,
    merge bare_dest_ledger id_source_ledger = Ok (dest, source)
    ∧ grant_entry dest "r1" "a1" = Some {[ "i" := PStr "d" ]}
    ∧ oauth_grants source = ∅.
Proof. eexists _, _. split; [vm_compute; reflexivity|]. by vm_compute. Qed.

(** Characters are counted, not bytes: [é] is one character of two
    bytes, and a key that consists of it cannot be unpacked. *)
Lemma unpack2_counts_characters :
  unpack2 "é" = None
  ∧ unpack2 "éa" = Some ("é", "a")
  ∧ unpack2 "ab" = Some ("a", "b")
  ∧ unpack2 "abc" = None
  ∧ merge_meta_loop ∅ ["é"] = Raise ValueError.
Proof. repeat split; vm_compute; reflexivity. Qed.

(** Away from that loop the merge does what it is meant to do.  Accounts
    the destination node lacks are copied with their metadata. *)
Lemma merge_accounts_loop_disjoint (items : list (string * metadata))
    (dst : gmap string metadata) :
  NoDup items.*1 →
  (∀ a m, (a, m) ∈ items → dst !! a = None) →
  merge_accounts_loop dst items = Ok (list_to_map items ∪ dst).
Proof.
  revert dst. induction items as [|[a m] items IH]; intros dst Hnd Hfree; simpl.
  - by rewrite (left_id_L ∅ (∪)).
  - apply NoDup_cons in Hnd as [Ha Hnd].
    rewrite (Hfree a m) by (by apply elem_of_cons; left).
    rewrite IH; [|done|].
    + rewrite <- insert_union_r by (by apply not_elem_of_list_to_map_1).
      by rewrite insert_union_l.
    + intros a' m' Hin. rewrite lookup_insert_ne.
      * apply (Hfree a' m'). by apply elem_of_cons; right.
      * intros <-. apply Ha. apply list_elem_of_fmap. by exists (a, m').
Qed.

Lemma merge_nodes_loop_disjoint (items : list (string * gmap string metadata))
    (dst : grants) :
  NoDup items.*1 →
  (∀ n data dst_node a, (n, data) ∈ items → dst !! n = Some dst_node →
                        is_Some (data !! a) → dst_node !! a = None) →
  merge_nodes_loop dst items = Ok (join_grants dst (list_to_map items)).
Proof.
  unfold join_grants.
  revert dst. induction items as [|[n data] items IH]; intros dst Hnd Hfree; simpl.
  - f_equal. apply map_eq; intros i. rewrite lookup_union_with, lookup_empty.
    by destruct (dst !! i).
  - apply NoDup_cons in Hnd as [Hn Hnd].
    assert (∀ n' data', (n', data') ∈ items → n' ≠ n) as Hne.
    { intros n' data' Hin ->. apply Hn. apply list_elem_of_fmap. by exists (n, data'). }
    assert ((list_to_map items : grants) !! n = None) as Hrest
      by (by apply not_elem_of_list_to_map_1).
    destruct (dst !! n) as [dst_node|] eqn:Hdst.
    + rewrite merge_accounts_loop_disjoint; [|apply NoDup_fst_map_to_list|].
      2:{ intros a m Hin%elem_of_map_to_list.
          apply (Hfree n data dst_node a); [by apply elem_of_cons; left|done|by rewrite Hin]. }
      simpl. rewrite list_to_map_to_list. rewrite IH; [|done|].
      * f_equal. apply map_eq; intros i.
        rewrite !lookup_union_with, !lookup_insert. case_decide; subst; [|done].
        by rewrite Hdst, Hrest.
      * intros n' data' dn a Hin. rewrite lookup_insert_ne by (symmetry; by eapply Hne).
        apply Hfree. by apply elem_of_cons; right.
    + rewrite IH; [|done|].
      * f_equal. apply map_eq; intros i.
        rewrite !lookup_union_with, !lookup_insert. case_decide; subst; [|done].
        by rewrite Hdst, Hrest.
      * intros n' data' dn a Hin. rewrite lookup_insert_ne by (symmetry; by eapply Hne).
        apply Hfree. by apply elem_of_cons; right.
Qed.

(** Two rows of one addon that share no (resource, account) pair merge
    without an exception: every entry of either side is in the
    destination afterwards, and the source's grant mapping is empty. *)
Lemma merge_without_shared_pair (self user_settings : UserSettings) :
  addon user_settings = addon self →
  (∀ n a, is_Some (grant_entry user_settings n a) → grant_entry self n a = None) →
  ∃ dest source,
    merge self user_settings = Ok (dest, source)
    ∧ oauth_grants source = ∅
    ∧ ∀ n a, grant_entry dest n a
             = grant_entry self n a ∪ grant_entry user_settings n a.
Proof.
  intros Hcls Hfree. unfold merge.
  rewrite Hcls, String.eqb_refl. simpl.
  rewrite merge_nodes_loop_disjoint; [|apply NoDup_fst_map_to_list|].
  2:{ intros n data dst_node a Hin%elem_of_map_to_list Hdst Ha.
      specialize (Hfree n a). unfold grant_entry in Hfree.
      rewrite Hin, Hdst in Hfree. by apply Hfree. }
  simpl. rewrite list_to_map_to_list. eexists _, _. split; [done|]. split; [done|].
  intros n a. unfold grant_entry, join_grants. simpl. rewrite lookup_union_with.
  specialize (Hfree n a). unfold grant_entry in Hfree.
  destruct (oauth_grants self !! n) as [dst_node|],
    (oauth_grants user_settings !! n) as [src_node|]; simpl in *; try done.
  - rewrite lookup_union. destruct (src_node !! a) as [m|], (dst_node !! a); try done.
    by discriminate Hfree.
  - by destruct (dst_node !! a).
  - by destruct (src_node !! a).
Qed.

(** *** Instances *)


Lemma verify_oauth_access_scoping_witness :
  ∃ s, grant_oauth_access fresh_ledger "r" "a1" (Some {[ "folder" := PStr "5" ]}) = Ok s
       ∧ verify_oauth_access s "r" "a1" None = true
       ∧ verify_oauth_access s "r" "a1" (Some {[ "folder" := PStr "5" ]}) = true
       ∧ verify_oauth_access s "r" "a1" (Some {[ "folder" := PStr "6" ]}) = false.
Proof.
  apply (verify_oauth_access_scoping fresh_ledger "r" "a1" ∅).
  vm_compute. eauto.
Defined.

(** The claim C4 as stated fails on a deleted node: [r1] holds a grant for
    [a1], yet the revocation does not reach it. *)
Lemma revoke_skips_deleted_node :
  ∃ out, revoke_oauth_access two_node_ledger two_nodes "a1" {[ "u1" ]} "u1" = Ok out
         ∧ is_Some (grant_entry two_node_ledger "r1" "a1")
         ∧ "r1" ∉ deauthorized out.
Proof.
  eexists. split; [vm_compute; reflexivity|]. split; [vm_compute; eauto|].
  simpl. by intros [=]%list_elem_of_singleton.
Qed.

Lemma revoke_oauth_access_complete_witness :
  ∃ out, revoke_oauth_access two_node_ledger two_nodes "a1" {[ "u1" ]} "u1" = Ok out
         ∧ (∀ r, r ∈ deauthorized out
                 ↔ is_Some (grant_entry two_node_ledger r "a1")
                   ∧ two_nodes !! r = Some false)
         ∧ (∀ r md, verify_oauth_access (revoked_settings out) r "a1" md = false).
Proof.
  apply (revoke_oauth_access_complete two_node_ledger two_nodes "a1" {[ "u1" ]} "u1").
  apply (bool_decide_unpack
           (map_Forall (λ r (g : gmap string metadata),
                          is_Some (g !! "a1") → is_Some (two_nodes !! r))
                       (oauth_grants two_node_ledger))).
  vm_compute. exact I.
Defined.

Lemma revoke_oauth_access_keeps_resources_witness :
  ∃ out, revoke_oauth_access two_node_ledger two_nodes "a1" {[ "u1" ]} "u1" = Ok out
         ∧ dom (oauth_grants (revoked_settings out)) = dom (oauth_grants two_node_ledger)
         ∧ oauth_grants (revoked_settings out) !! "r1" = Some ∅.
Proof.
  eexists. split; [vm_compute; reflexivity|].
  match goal with
  | |- context [revoked_settings ?o] =>
      destruct (revoke_oauth_access_keeps_resources
                  two_node_ledger two_nodes "a1" {[ "u1" ]} "u1" o)
        as (Hdom & _ & Hempty)
  end.
  { vm_compute. reflexivity. }
  split; [exact Hdom|]. apply (Hempty "r1" ∅). vm_compute. reflexivity.
Defined.

End LedgerFacts.



(** ** Properties of forking a node binding *)

Module NodeBindingFacts.
Import Ledger NodeBinding Scenarios LedgerFacts.

Lemma verify_bare (us : UserSettings) (node acct : string) (m : metadata) :
  grant_entry us node acct = Some m → verify_oauth_access us node acct None = true.
Proof.
  intros Hm. apply verify_oauth_access_true. exists m. split; [done|].
  intros k v. simpl. by rewrite lookup_empty.
Qed.

(** A binding whose ledger row holds the grant of its own node and account,
    and whose owner has an account on the provider, is authorized and
    complete. *)
Lemma bound_has_auth (self : NodeSettings) (us : UserSettings) (a : string) (m : metadata) :
  user_settings self = Some us → external_account self = Some a →
  grant_entry us (owner self) a = Some m →
  Ledger.has_auth us = true →
  has_auth self = true ∧ complete self = true.
Proof.
  intros Hus Ha Hm Hacct. unfold complete, has_auth. rewrite Hus, Ha.
  rewrite Hacct, (verify_bare us _ a m Hm). done.
Qed.




End NodeBindingFacts.

(** ** Properties of the handshake and of refreshing *)

Module ProviderFacts.
Import Provider Scenarios LedgerFacts.

(** *** Completing a handshake *)

(** C5, as the code has it: a callback whose [state] (OAuth2) or
    [oauth_token] (OAuth1) differs from the pending value never touches the
    account store, the user's accounts or the session.  It fails with the
    mismatch error, unless the request carries an [error] parameter: that is
    looked at first and makes the call return [False] without raising. *)
Theorem auth_callback_mismatch (self : ExternalProvider) (w : World) (user : string)
    (args : gmap string string) (reply : result (gmap string pyval))
    (hook : gmap string pyval → result (gmap string pyval)) (now : Z)
    (pending : gmap string string) :
  oauth_states w ≫= (.!! short_name self) = Some pending →
  pending !! pending_key (_oauth_version self)
    ≠ args !! callback_key (_oauth_version self) →
  (args !! "error" = None →
     auth_callback self w user args reply hook now
     = (Raise (PermissionsError "Request token does not match"), w))
  ∧ (is_Some (args !! "error") →
     auth_callback self w user args reply hook now = (Ok false, w)).
Proof.
  intros Hpending Hne. unfold auth_callback. split.
  - intros Herr. rewrite (proj2 (key_in_false "error" args)) by done.
    rewrite Hpending.
    destruct (_oauth_version self); simpl in Hne; by rewrite bool_decide_true.
  - intros Herr. by rewrite (proj2 (key_in_true "error" args)).
Qed.

Lemma auth_callback_mismatch_witness :
  auth_callback box_provider pending_world "u1" {[ "state" := "forged"; "code" := "abc" ]}
    (Ok {[ "access_token" := PStr "T" ]}) box_hook 5
  = (Raise (PermissionsError "Request token does not match"), pending_world).
Proof.
  apply (auth_callback_mismatch box_provider pending_world "u1"
           {[ "state" := "forged"; "code" := "abc" ]}
           (Ok {[ "access_token" := PStr "T" ]}) box_hook 5 {[ "state" := "s1" ]}).
  - vm_compute. reflexivity.
  - vm_compute. congruence.
  - vm_compute. reflexivity.
Defined.

(** The claim C5 as stated fails when the provider reports an error: the
    forged [state] is then never compared and no mismatch error is raised. *)
Lemma auth_callback_error_parameter_skips_mismatch :
  (oauth_states pending_world ≫= (.!! "box")) ≫= (.!! "state")
    ≠ forged_error_args !! "state"
  ∧ auth_callback box_provider pending_world "u1" forged_error_args
      (Ok {[ "access_token" := PStr "T" ]}) box_hook 5
    = (Ok false, pending_world).
Proof. split; vm_compute; congruence. Qed.

(** *** Storing an account *)

Lemma text_column_absent (info : gmap string pyval) (key : string) (t : option string) :
  info !! key = None → text_column (dict_get info key) = Ok t → t = None.
Proof. unfold dict_get. intros ->. simpl. congruence. Qed.

Lemma datetime_column_absent (info : gmap string pyval) (key : string) (t : option Z) :
  info !! key = None → datetime_column (dict_get info key) = Ok t → t = None.
Proof. unfold dict_get. intros ->. simpl. congruence. Qed.

(** C8, as the code has it: storing a payload sets the access token from
    the payload's key and the refresh date to now, and it assigns the
    secret, the refresh token and the expiry unconditionally from the
    payload, so that a field the payload omits is stored as null whatever
    the account held before. *)
Theorem set_external_account_overwrites (self : ExternalProvider) (w : World)
    (user : string) (info : gmap string pyval) (now : Z) (pid key : string)
    (secret refresh display profile : option string) (expires : option Z) :
  info !! "provider_id" = Some (PStr pid) →
  info !! "key" = Some (PStr key) →
  text_column (dict_get info "secret") = Ok secret →
  datetime_column (dict_get info "expires_at") = Ok expires →
  text_column (dict_get info "refresh_token") = Ok refresh →
  text_column (dict_get info "display_name") = Ok display →
  text_column (dict_get info "profile_url") = Ok profile →
  ∃ w' saved,
    _set_external_account self w user info now = (Ok true, w')
    ∧ accounts w' !! (short_name self, pid) = Some saved
    ∧ oauth_key saved = Some key
    ∧ date_last_refreshed saved = Some now
    ∧ oauth_secret saved = secret
    ∧ refresh_token saved = refresh
    ∧ expires_at saved = expires
    ∧ (info !! "secret" = None → oauth_secret saved = None)
    ∧ (info !! "refresh_token" = None → refresh_token saved = None)
    ∧ (info !! "expires_at" = None → expires_at saved = None).
Proof.
  intros Hpid Hkey Hsecret Hexpires Hrefresh Hdisplay Hprofile.
  unfold _set_external_account, assign_account.
  rewrite Hpid, Hkey, Hsecret, Hexpires, Hrefresh, Hdisplay, Hprofile. simpl.
  eexists _, _. split; [done|]. simpl. split; [apply lookup_insert_eq|]. simpl.
  repeat split; try done.
  - intros Habs. by eapply text_column_absent.
  - intros Habs. by eapply text_column_absent.
  - intros Habs. by eapply datetime_column_absent.
Qed.

Lemma set_external_account_overwrites_witness :
  ∃ w' saved,
    _set_external_account box_provider pending_world "u1" key_only_info 7 = (Ok true, w')
    ∧ accounts w' !! ("box", "42") = Some saved
    ∧ oauth_key saved = Some "T1"
    ∧ date_last_refreshed saved = Some 7
    ∧ oauth_secret saved = None
    ∧ refresh_token saved = None
    ∧ expires_at saved = None.
Proof.
  destruct (set_external_account_overwrites box_provider pending_world "u1"
              key_only_info 7 "42" "T1" None None None None None)
    as (w' & saved & H1 & H2 & H3 & H4 & H5 & H6 & H7 & _);
    [vm_compute; reflexivity ..|].
  exists w', saved. repeat split; assumption.
Defined.

(** The claim C8 as stated fails: the stored refresh token [R0] does not
    survive a payload that omits [refresh_token]. *)
Lemma set_external_account_drops_omitted_refresh_token :
  ∃ before after,
    accounts pending_world !! ("box", "42") = Some before
    ∧ key_only_info !! "refresh_token" = None
    ∧ accounts (snd (_set_external_account box_provider pending_world "u1" key_only_info 7))
        !! ("box", "42") = Some after
    ∧ refresh_token before = Some "R0"
    ∧ refresh_token after = None.
Proof. eexists _, _. repeat split; vm_compute; reflexivity. Qed.

(** *** The float of [total_seconds] *)

Lemma round_half_even_near (n d : Z) :
  0 < d → 2 * Z.abs (round_half_even n d * d - n) ≤ d.
Proof.
  intros Hd. unfold round_half_even.
  pose proof (Z.div_mod n d ltac:(lia)) as Hn.
  pose proof (Z.mod_pos_bound n d Hd) as Hr.
  destruct (Z.ltb_spec (2 * (n mod d)) d); [lia|].
  destruct (Z.ltb_spec d (2 * (n mod d))); [lia|].
  destruct (Z.even (n / d)); lia.
Qed.


Lemma round_half_even_exact (x d : Z) : 0 < d → round_half_even (x * d) d = x.
Proof.
  intros Hd. unfold round_half_even.
  rewrite Z.div_mul, Z.mod_mul by lia.
  destruct (Z.ltb_spec (2 * 0) d); [done|lia].
Qed.

Lemma floor_log2_le (n d : Z) : floor_log2 n d ≤ Z.log2 n - Z.log2 d.
Proof. unfold floor_log2. repeat case_match; lia. Qed.

(** Below [2^53] microseconds the float has at least 19 bits after the
    binary point, and is within half a unit of the last of them of the
    exact quotient. *)
Lemma true_divide_near (n : Z) :
  n ≠ 0 → Z.abs n < 2 ^ 53 →
  ∃ m e, true_divide n 1000000 = (m, e) ∧ e ≤ -19
         ∧ 2 * Z.abs (m * 1000000 - n * 2 ^ (- e)) ≤ 1000000.
Proof.
  intros Hn Hb. unfold true_divide.
  destruct (Z.eqb_spec n 0) as [|_]; [done|].
  set (e := floor_log2 (Z.abs n) 1000000 - 52).
  assert (e ≤ -19) as He.
  { pose proof (floor_log2_le (Z.abs n) 1000000) as Hle.
    assert (Z.log2 (Z.abs n) < 53) as Hlog by (apply Z.log2_lt_pow2; lia).
    change (Z.log2 1000000) with 19 in Hle. lia. }
  destruct (Z.leb_spec 0 e) as [|_]; [lia|].
  eexists _, _. split; [done|]. split; [done|].
  assert (0 < 2 ^ (- e)) as Hs by (apply Z.pow_pos_nonneg; lia).
  pose proof (round_half_even_near (Z.abs n * 2 ^ (- e)) 1000000 ltac:(lia)) as Hnear.
  set (r := round_half_even _ _) in *. set (s := 2 ^ (- e)) in *.
  destruct (Z.abs_spec n) as [[? Ha]|[? Ha]]; rewrite Ha in Hnear.
  - rewrite Z.sgn_pos by lia. lia.
  - rewrite Z.sgn_neg by lia. lia.
Qed.

Lemma pow2_19_le (e : Z) : e ≤ -19 → 524288 ≤ 2 ^ (- e).
Proof. intros He. change 524288 with (2 ^ 19). apply Z.pow_le_mono_r; lia. Qed.

(** Half a unit in the last place is then less than a microsecond, so the
    rounding never carries a difference across a whole number of
    seconds. *)
Lemma total_seconds_lt_exact (delta seconds : Z) :
  Z.abs delta < 2 ^ 53 →
  total_seconds_lt delta seconds = (delta <? seconds * 1000000).
Proof.
  intros Hb. unfold total_seconds_lt, total_seconds.
  destruct (decide (delta = 0)) as [->|Hn].
  { simpl. destruct (Z.ltb_spec 0 (seconds * 1000000)), (Z.ltb_spec (0 * 1) seconds); lia. }
  destruct (true_divide_near delta Hn Hb) as (m & e & -> & He & Hnear). simpl.
  destruct (Z.leb_spec 0 e) as [|_]; [lia|].
  pose proof (pow2_19_le e He) as Hs. set (s := 2 ^ (- e)) in *.
  destruct (Z.ltb_spec delta (seconds * 1000000)) as [Hlt|Hge].
  - apply Z.ltb_lt.
    assert (s ≤ (seconds * 1000000 - delta) * s) by nia. nia.
  - apply Z.ltb_ge.
    assert (0 ≤ (delta - seconds * 1000000) * s) by nia. nia.
Qed.


Lemma floor_log2_whole (l : Z) :
  l ≠ 0 → Z.abs l < 2 ^ 53 → floor_log2 (Z.abs (l * 1000000)) 1000000 ≤ 52.
Proof.
  intros Hl Hb. rewrite Z.abs_mul. change (Z.abs 1000000) with 1000000.
  set (a := Z.abs l) in *. assert (0 < a) as Ha by (unfold a; lia).
  unfold floor_log2.
  set (p := Z.log2 (a * 1000000) - Z.log2 1000000).
  assert (p ≤ 53) as Hp.
  { assert (Z.log2 (a * 1000000) < 73) as Hlog.
    { apply Z.log2_lt_pow2; [lia|].
      change (2 ^ 73) with (2 ^ 53 * 1048576). nia. }
    unfold p. change (Z.log2 1000000) with 19. lia. }
  destruct (Z.leb_spec 0 p) as [Hp0|Hp0].
  - destruct (Z.leb_spec (1000000 * 2 ^ p) (a * 1000000)) as [Hle|_]; [|lia].
    assert (2 ^ p < 2 ^ 53) as Hlt by lia.
    apply Z.pow_lt_mono_r_iff in Hlt; lia.
  - case_match; lia.
Qed.

(** A whole number of seconds below [2^53] is a float. *)
Lemma total_seconds_lt_whole (l seconds : Z) :
  Z.abs l < 2 ^ 53 →
  total_seconds_lt (l * 1000000) seconds = (l <? seconds).
Proof.
  intros Hb. unfold total_seconds_lt, total_seconds, true_divide.
  destruct (Z.eqb_spec (l * 1000000) 0) as [Hz|Hz].
  { assert (l = 0) as -> by lia. simpl.
    destruct (Z.ltb_spec (0 * 1) seconds), (Z.ltb_spec 0 seconds); lia. }
  assert (l ≠ 0) as Hl by lia.
  pose proof (floor_log2_whole l Hl Hb) as Hfl.
  set (e := floor_log2 _ _ - 52). assert (e ≤ 0) as He by (unfold e; lia).
  assert (Z.sgn (l * 1000000) * Z.abs l = l) as Hsgn.
  { destruct (Z.abs_spec l) as [[? ->]|[? ->]];
      [rewrite Z.sgn_pos by lia|rewrite Z.sgn_neg by lia]; lia. }
  rewrite Z.abs_mul. change (Z.abs 1000000) with 1000000. simpl.
  destruct (Z.leb_spec 0 e) as [He0|He0].
  - assert (e = 0) as -> by lia. change (2 ^ 0) with 1.
    rewrite Z.mul_1_r, round_half_even_exact, Hsgn by lia.
    destruct (Z.ltb_spec (l * 1) seconds), (Z.ltb_spec l seconds); lia.
  - assert (0 < 2 ^ (- e)) as Hs by (apply Z.pow_pos_nonneg; lia).
    set (s := 2 ^ (- e)) in *.
    replace (Z.abs l * 1000000 * s) with (Z.abs l * s * 1000000) by lia.
    rewrite round_half_even_exact by lia.
    replace (Z.sgn (l * 1000000) * (Z.abs l * s)) with (l * s) by (rewrite <- Hsgn at 1; lia).
    destruct (Z.ltb_spec (l * s) (seconds * s)), (Z.ltb_spec l seconds); nia.
Qed.




(** *** Refreshing *)

(** C6, as the code has it: as long as the expiry is less than [2^53]
    microseconds (some 285 years) away from now, [_needs_refresh] answers,
    and answers [True] exactly when the refresh window is nonzero, the
    expiry is set, and less than the window is left until the expiry; a
    zero window or an unset expiry give [False]. *)
Theorem needs_refresh_window (self : ExternalProvider) (acct : ExternalAccount) (now : Z) :
  account self = Some acct →
  (∀ expires, expires_at acct = Some expires → Z.abs (expires - now) < 2 ^ 53) →
  (∃ b, _needs_refresh self now = Ok b)
  ∧ (_needs_refresh self now = Ok true
     ↔ refresh_time self ≠ 0
       ∧ ∃ expires, expires_at acct = Some expires
                    ∧ expires - now < refresh_time self * 1000000)
  ∧ (refresh_time self = 0 → _needs_refresh self now = Ok false)
  ∧ (expires_at acct = None → _needs_refresh self now = Ok false).
Proof.
  intros Hacct Hnear. unfold _needs_refresh. rewrite Hacct.
  destruct (Z.eqb_spec (refresh_time self) 0) as [Hz|Hz]; simpl.
  - split; [eauto|]. split; [|done]. split; [done|]. by intros [? _].
  - destruct (expires_at acct) as [expires|]; simpl.
    + rewrite total_seconds_lt_exact by (by apply Hnear).
      split; [eauto|]. split; [|done]. split.
      * intros [= Hlt%Z.ltb_lt]. eauto.
      * intros (_ & e & [= <-] & Hlt). f_equal. by apply Z.ltb_lt.
    + split; [eauto|]. split; [|done]. split; [done|]. by intros (_ & e & [=] & _).
Qed.

Lemma needs_refresh_window_witness :
  _needs_refresh box_provider 800000000 = Ok true
  ∧ _needs_refresh box_provider 600000000 = Ok false.
Proof.
  destruct (needs_refresh_window box_provider box_account 800000000 eq_refl)
    as (_ & Hiff & _).
  - intros expires [= <-]. vm_compute. reflexivity.
  - split.
    + apply Hiff. split; [vm_compute; congruence|].
      exists 1000000000. split; [reflexivity|vm_compute; reflexivity].
    + vm_compute. reflexivity.
Defined.

(** The claim C6 as stated fails far from the expiry: with a window of
    [2 * 10^10] seconds and one microsecond less than that left, the float
    of [total_seconds()] is the window itself, and the answer is
    [False]. *)
Lemma needs_refresh_rounds_to_the_window :
  refresh_time far_provider ≠ 0
  ∧ expires_at far_account = Some 19999999999999999
  ∧ 19999999999999999 - 0 < refresh_time far_provider * 1000000
  ∧ total_seconds (19999999999999999 - 0) = (20000000000 * 2 ^ 18, -18)
  ∧ _needs_refresh far_provider 0 = Ok false.
Proof. repeat split; vm_compute; congruence. Qed.

(** C7: [refresh_oauth_key] returns [False], raising nothing and leaving
    the account as it was, whenever no refresh capability is configured,
    client credentials are missing, no refresh is needed and none is
    forced, or the credentials have expired for good and no refresh is
    forced.  When the request goes out and the provider rejects it, the
    rejection is raised if the refresh was forced and [False] is returned
    otherwise. *)
Theorem refresh_oauth_key_not_refreshed (self : ExternalProvider) (now : Z) (force : bool)
    (auth_key refresh_key : string)
    (expiry_fn : option (gmap string pyval → result pyval))
    (reply : result (gmap string pyval)) :
  let outcome := refresh_oauth_key self now force auth_key refresh_key expiry_fn reply in
  (account self = None ∨ truthy_text (auto_refresh_url self) = false →
     outcome = (Ok false, self))
  ∧ (truthy_text (client_id self) = false ∨ truthy_text (client_secret self) = false →
     outcome = (Ok false, self))
  ∧ (force = false → _needs_refresh self now = Ok false → outcome = (Ok false, self))
  ∧ (force = false → has_expired_credentials self now = Ok true →
     outcome = (Ok false, self))
  ∧ (∀ e, is_Some (account self) →
          truthy_text (auto_refresh_url self) = true →
          truthy_text (client_id self) = true →
          truthy_text (client_secret self) = true →
          force = true
          ∨ (_needs_refresh self now = Ok true
             ∧ has_expired_credentials self now = Ok false) →
          reply = Raise e → is_rejection e = true →
          outcome = (if force then Raise e else Ok false, self)).
Proof.
  unfold refresh_oauth_key. simpl. repeat split.
  - intros [->| ->]; [done|]. by destruct (account self).
  - destruct (account self); [|done].
    destruct (truthy_text (auto_refresh_url self)); [|done].
    by intros [->| ->]; simpl; rewrite ?andb_false_r.
  - intros -> Hneeds. destruct (account self); [|done].
    destruct (truthy_text (auto_refresh_url self)); [|done]. simpl.
    destruct (truthy_text (client_id self) && truthy_text (client_secret self)); [|done].
    simpl. by rewrite Hneeds.
  - intros -> Hexpired. destruct (account self); [|done].
    destruct (truthy_text (auto_refresh_url self)); [|done]. simpl.
    destruct (truthy_text (client_id self) && truthy_text (client_secret self)); [|done].
    simpl. rewrite Hexpired. simpl.
    unfold _needs_refresh.
    destruct (negb (refresh_time self =? 0)); [|done].
    destruct (account self) as [acct|] eqn:Hacct.
    + destruct (expires_at acct); [|done]. by destruct (total_seconds_lt _ _).
    + unfold has_expired_credentials in Hexpired. rewrite Hacct in Hexpired.
      by destruct (negb (expiry_time self =? 0)).
  - intros e [acct Hacct] -> -> -> Hgo -> Hrej. rewrite Hacct. simpl.
    destruct Hgo as [->|[-> ->]]; simpl.
    + unfold has_expired_credentials. rewrite Hacct.
      destruct (negb (expiry_time self =? 0)); [|by rewrite Hrej].
      destruct (expires_at acct); [|by rewrite Hrej].
      simpl. rewrite andb_false_r. by rewrite Hrej.
    + rewrite Hrej. by destruct force.
Qed.

Lemma refresh_oauth_key_not_refreshed_witness :
  refresh_oauth_key box_provider 600000000 false "access_token" "refresh_token" None
    (Raise (TransportError "unreachable"))
  = (Ok false, box_provider)
  ∧ refresh_oauth_key box_provider 800000000 false "access_token" "refresh_token" None
      (Raise InvalidGrantError)
    = (Ok false, box_provider)
  ∧ refresh_oauth_key box_provider 800000000 true "access_token" "refresh_token" None
      (Raise InvalidGrantError)
    = (Raise InvalidGrantError, box_provider).
Proof.
  split; [|split].
  - destruct (refresh_oauth_key_not_refreshed box_provider 600000000 false
                "access_token" "refresh_token" None (Raise (TransportError "unreachable")))
      as (_ & _ & Hidle & _).
    apply Hidle; vm_compute; reflexivity.
  - destruct (refresh_oauth_key_not_refreshed box_provider 800000000 false
                "access_token" "refresh_token" None (Raise InvalidGrantError))
      as (_ & _ & _ & _ & Hrejected).
    apply (Hrejected InvalidGrantError); try (vm_compute; reflexivity).
    + vm_compute. eauto.
    + right. vm_compute. split; reflexivity.
  - destruct (refresh_oauth_key_not_refreshed box_provider 800000000 true
                "access_token" "refresh_token" None (Raise InvalidGrantError))
      as (_ & _ & _ & _ & Hrejected).
    apply (Hrejected InvalidGrantError); try (vm_compute; reflexivity).
    + vm_compute. eauto.
    + by left.
Defined.

End ProviderFacts.

(** ** Further laws of the grant ledger *)

Module LedgerLaws.
Import Ledger LedgerOrder Scenarios LedgerFacts.

(** [verify_oauth_access] reads nothing but the entry of the pair. *)
Lemma verify_oauth_access_ext (s s' : UserSettings) (r a : string) (md : option metadata) :
  grant_entry s r a = grant_entry s' r a →
  verify_oauth_access s r a md = verify_oauth_access s' r a md.
Proof. unfold verify_oauth_access. by intros ->. Qed.

(** The entries of the row a successful grant returns. *)
Lemma grant_entry_granted (self : UserSettings) (r a r' a' : string) (m : metadata) :
  grant_entry
    (set_oauth_grants
       (<[r := <[a := m]> (default ∅ (oauth_grants self !! r))]> (oauth_grants self)) self)
    r' a'
  = if decide (r = r' ∧ a = a') then Some m else grant_entry self r' a'.
Proof.
  unfold grant_entry. simpl. rewrite lookup_insert.
  destruct (decide (r = r')) as [<-|Hr]; simpl.
  - rewrite lookup_insert. destruct (decide (a = a')) as [<-|Ha].
    + by rewrite decide_True.
    + rewrite decide_False by (by intros [_ ?]).
      by destruct (oauth_grants self !! r).
  - by rewrite decide_False by (by intros [? _]).
Qed.

Lemma grant_oauth_access_not_owned (self : UserSettings) (r a : string)
    (md : option metadata) :
  owner_external_accounts self !! a = None →
  grant_oauth_access self r a md = Raise (PermissionsError "").
Proof.
  intros Hown. unfold grant_oauth_access.
  by rewrite (proj2 (key_in_false a _) Hown).
Qed.

Lemma grant_oauth_access_Ok_owned (self s : UserSettings) (r a : string)
    (md : option metadata) :
  grant_oauth_access self r a md = Ok s → is_Some (owner_external_accounts self !! a).
Proof.
  intros Hgrant. destruct (owner_external_accounts self !! a) eqn:Hown; [eauto|].
  by rewrite grant_oauth_access_not_owned in Hgrant.
Qed.

(** X1: a grant succeeds exactly for an account among the owner's
    accounts; for any other account it raises [PermissionsError] and no
    row is produced. *)
Theorem grant_oauth_access_ownership (self : UserSettings) (r a : string)
    (md : option metadata) :
  ((∃ s, grant_oauth_access self r a md = Ok s)
   ↔ is_Some (owner_external_accounts self !! a))
  ∧ (grant_oauth_access self r a md = Raise (PermissionsError "")
     ↔ owner_external_accounts self !! a = None).
Proof.
  split; split.
  - intros [s Hs]. by eapply grant_oauth_access_Ok_owned.
  - intros Hown. rewrite grant_oauth_access_owned by done. eauto.
  - intros Hraise. destruct (owner_external_accounts self !! a) eqn:Hown; [|done].
    rewrite grant_oauth_access_owned in Hraise by (by rewrite Hown). done.
  - apply grant_oauth_access_not_owned.
Qed.

(** X2: what was just granted verifies: after a grant with some
    metadata, the pair verifies for that metadata and without any. *)
Theorem grant_then_verify (self : UserSettings) (r a : string) (md : option metadata) :
  is_Some (owner_external_accounts self !! a) →
  ∃ s, grant_oauth_access self r a md = Ok s
       ∧ verify_oauth_access s r a md = true
       ∧ verify_oauth_access s r a None = true.
Proof.
  intros Hown. rewrite grant_oauth_access_owned by done.
  eexists. split; [done|].
  split; apply verify_oauth_access_true; eexists;
    (split; [rewrite grant_entry_granted; by rewrite decide_True|]).
  - intros k v Hk. by apply lookup_union_Some_l.
  - intros k v. simpl. by rewrite lookup_empty.
Qed.

Lemma grant_then_verify_witness :
  ∃ s, grant_oauth_access fresh_ledger "r" "a1" (Some {[ "folder" := PStr "9" ]}) = Ok s
       ∧ verify_oauth_access s "r" "a1" (Some {[ "folder" := PStr "9" ]}) = true
       ∧ verify_oauth_access s "r" "a1" None = true.
Proof.
  apply (grant_then_verify fresh_ledger "r" "a1" (Some {[ "folder" := PStr "9" ]})).
  vm_compute. eauto.
Defined.

(** X3: a grant touches one pair only: the entry of every other
    (resource, account) pair, and with it every verification of such a
    pair, is as before. *)
Theorem grant_oauth_access_frame (self s : UserSettings) (r a r' a' : string)
    (md md' : option metadata) :
  grant_oauth_access self r a md = Ok s →
  ¬ (r = r' ∧ a = a') →
  grant_entry s r' a' = grant_entry self r' a'
  ∧ verify_oauth_access s r' a' md' = verify_oauth_access self r' a' md'.
Proof.
  intros Hgrant Hother.
  assert (is_Some (owner_external_accounts self !! a)) as Hown
    by (by eapply grant_oauth_access_Ok_owned).
  rewrite grant_oauth_access_owned in Hgrant by done. injection Hgrant as <-.
  assert (∀ m, grant_entry
                 (set_oauth_grants
                    (<[r := <[a := m]> (default ∅ (oauth_grants self !! r))]>
                       (oauth_grants self)) self) r' a'
               = grant_entry self r' a') as Hentry.
  { intros m. rewrite grant_entry_granted. by rewrite decide_False. }
  split; [apply Hentry|]. apply verify_oauth_access_ext, Hentry.
Qed.

Lemma grant_oauth_access_frame_witness :
  ∃ s, grant_oauth_access granting_ledger "r2" "a1" None = Ok s
       ∧ grant_entry s "r1" "a1" = Some {[ "folder" := PStr "5" ]}.
Proof.
  eexists. split; [vm_compute; reflexivity|].
  match goal with
  | |- grant_entry ?s _ _ = _ =>
      destruct (grant_oauth_access_frame granting_ledger s "r2" "a1" "r1" "a1" None None)
        as [-> _]
  end.
  - vm_compute. reflexivity.
  - by intros [[=] _].
  - vm_compute. reflexivity.
Defined.

(** X4: granting the same metadata again changes nothing: the second call
    returns the row the first one returned. *)
Theorem grant_oauth_access_idempotent (self s : UserSettings) (r a : string)
    (md : option metadata) :
  grant_oauth_access self r a md = Ok s →
  grant_oauth_access s r a md = Ok s.
Proof.
  intros Hgrant.
  assert (is_Some (owner_external_accounts self !! a)) as Hown
    by (by eapply grant_oauth_access_Ok_owned).
  rewrite grant_oauth_access_owned in Hgrant by done. injection Hgrant as <-.
  rewrite grant_oauth_access_owned by done.
  rewrite grant_entry_granted, decide_True by done. simpl.
  rewrite lookup_insert_eq. simpl.
  rewrite (assoc_L (∪)), (idemp_L (∪)). unfold set_oauth_grants. simpl.
  by rewrite !insert_insert_eq.
Qed.

Lemma grant_oauth_access_idempotent_witness :
  ∃ s, grant_oauth_access fresh_ledger "r" "a1" (Some {[ "folder" := PStr "9" ]}) = Ok s
       ∧ grant_oauth_access s "r" "a1" (Some {[ "folder" := PStr "9" ]}) = Ok s.
Proof.
  eexists. split; [vm_compute; reflexivity|].
  apply grant_oauth_access_idempotent with (self := fresh_ledger).
  vm_compute. reflexivity.
Defined.

(** Verification is monotone in what it asks for: a pair that verifies
    for some metadata verifies for every part of that metadata, and without
    any. *)
Theorem verify_oauth_access_weaken (self : UserSettings) (r a : string) (m m' : metadata) :
  verify_oauth_access self r a (Some m) = true →
  m' ⊆ m →
  verify_oauth_access self r a (Some m') = true
  ∧ verify_oauth_access self r a None = true.
Proof.
  intros (granted & Hg & Hall)%verify_oauth_access_true Hsub.
  split; apply verify_oauth_access_true; exists granted; (split; [done|]); simpl.
  - intros k v Hk. apply Hall. simpl. by eapply lookup_weaken.
  - intros k v. by rewrite lookup_empty.
Qed.

Lemma verify_oauth_access_weaken_witness :
  verify_oauth_access two_node_ledger "r2" "a1" (Some ∅) = true
  ∧ verify_oauth_access two_node_ledger "r2" "a1" None = true.
Proof.
  apply (verify_oauth_access_weaken two_node_ledger "r2" "a1" {[ "folder" := PStr "5" ]} ∅).
  - vm_compute. reflexivity.
  - apply map_empty_subseteq.
Defined.

(** *** Revocation *)

Lemma revoke_oauth_access_Ok (self : UserSettings) (nodes : gmap string bool) (a : string)
    (users : gset string) (u : string) (out : Revoked) :
  revoke_oauth_access self nodes a users u = Ok out →
  revoked_settings out = set_oauth_grants (delete a <$> oauth_grants self) self
  ∧ get_nodes_with_oauth_grants self nodes a = Ok (deauthorized out)
  ∧ remote_revoked out
    = bool_decide (size users = 1%nat) && bool_decide (u ∈ users).
Proof.
  unfold revoke_oauth_access.
  destruct (get_nodes_with_oauth_grants self nodes a) as [visited|]; [|done].
  simpl. by intros [= <-].
Qed.

(** X5: a revocation touches one account only: the entries of every other
    account, and every verification of them, are as before, and the owner
    and the owner's accounts stay. *)
Theorem revoke_oauth_access_frame (self : UserSettings) (nodes : gmap string bool)
    (a a' r : string) (users : gset string) (u : string) (out : Revoked)
    (md : option metadata) :
  revoke_oauth_access self nodes a users u = Ok out →
  a' ≠ a →
  grant_entry (revoked_settings out) r a' = grant_entry self r a'
  ∧ verify_oauth_access (revoked_settings out) r a' md = verify_oauth_access self r a' md
  ∧ Ledger.owner (revoked_settings out) = Ledger.owner self
  ∧ owner_external_accounts (revoked_settings out) = owner_external_accounts self.
Proof.
  intros (-> & _ & _)%revoke_oauth_access_Ok Hne.
  assert (grant_entry (set_oauth_grants (delete a <$> oauth_grants self) self) r a'
          = grant_entry self r a') as Hentry.
  { unfold grant_entry. simpl. rewrite lookup_fmap.
    destruct (oauth_grants self !! r); simpl; [|done]. by rewrite lookup_delete_ne. }
  split; [done|]. split; [by apply verify_oauth_access_ext|done].
Qed.

Lemma revoke_oauth_access_frame_witness :
  ∃ out, revoke_oauth_access two_account_ledger two_nodes "a1" {[ "u1" ]} "u1" = Ok out
         ∧ grant_entry (revoked_settings out) "r2" "a2" = Some {[ "folder" := PStr "7" ]}.
Proof.
  eexists. split; [vm_compute; reflexivity|].
  match goal with
  | |- grant_entry (revoked_settings ?o) _ _ = _ =>
      destruct (revoke_oauth_access_frame two_account_ledger two_nodes "a1" "a2" "r2"
                  {[ "u1" ]} "u1" o None) as [-> _]
  end.
  - vm_compute. reflexivity.
  - discriminate.
  - vm_compute. reflexivity.
Defined.

Lemma nodes_with_grants_loop_Raise (nodes : gmap string bool) (acct : string)
    (items : list (string * gmap string metadata)) (e : exn) :
  nodes_with_grants_loop nodes acct items = Raise e →
  e = AttributeError
  ∧ ∃ r g, (r, g) ∈ items ∧ is_Some (g !! acct) ∧ nodes !! r = None.
Proof.
  induction items as [|[n g] items IH]; simpl; [done|].
  destruct (key_in acct g) eqn:Hin.
  - apply key_in_true in Hin. destruct (nodes !! n) as [is_deleted|] eqn:Hn.
    + destruct (nodes_with_grants_loop nodes acct items) as [tl|e'] eqn:Hloop; [done|].
      simpl. intros [= <-]. destruct (IH eq_refl) as (-> & r & g' & ? & ? & ?).
      split; [done|]. exists r, g'. split; [by apply elem_of_cons; right|done].
    + intros [= <-]. split; [done|]. exists n, g. split; [by apply elem_of_cons; left|done].
  - intros Hloop. destruct (IH Hloop) as (-> & r & g' & ? & ? & ?).
    split; [done|]. exists r, g'. split; [by apply elem_of_cons; right|done].
Qed.

Lemma nodes_with_grants_loop_loaded (nodes : gmap string bool) (acct : string)
    (items : list (string * gmap string metadata)) (yielded : list string) :
  nodes_with_grants_loop nodes acct items = Ok yielded →
  ∀ r g, (r, g) ∈ items → is_Some (g !! acct) → is_Some (nodes !! r).
Proof.
  revert yielded. induction items as [|[n g] items IH]; intros yielded; simpl.
  - intros _ r g' Hin. by apply elem_of_nil in Hin.
  - destruct (key_in acct g) eqn:Hin.
    + destruct (nodes !! n) as [is_deleted|] eqn:Hn; [|done].
      destruct (nodes_with_grants_loop nodes acct items) as [tl|] eqn:Hloop; [|done].
      intros _ r g' [[= -> ->]|Hr]%elem_of_cons Hg; [by rewrite Hn|by eapply IH].
    + apply key_in_false in Hin.
      intros Hloop r g' [[= -> ->]|Hr]%elem_of_cons Hg; [|by eapply IH].
      rewrite Hin in Hg. by destruct Hg.
Qed.

(** X6: a revocation fails exactly when a resource that holds a grant for
    the account cannot be loaded; it then raises [AttributeError], and it
    raises nothing else. *)
Theorem revoke_oauth_access_failure (self : UserSettings) (nodes : gmap string bool)
    (a : string) (users : gset string) (u : string) :
  (revoke_oauth_access self nodes a users u = Raise AttributeError
   ↔ ∃ r, is_Some (grant_entry self r a) ∧ nodes !! r = None)
  ∧ (∀ e, revoke_oauth_access self nodes a users u = Raise e → e = AttributeError).
Proof.
  assert (∀ e, revoke_oauth_access self nodes a users u = Raise e →
               e = AttributeError
               ∧ ∃ r, is_Some (grant_entry self r a) ∧ nodes !! r = None) as Hraise.
  { intros e. unfold revoke_oauth_access, get_nodes_with_oauth_grants.
    destruct (nodes_with_grants_loop nodes a (map_to_list (oauth_grants self)))
      as [yielded|e'] eqn:Hloop; [done|].
    simpl. intros [= <-].
    destruct (nodes_with_grants_loop_Raise _ _ _ _ Hloop)
      as (-> & r & g & Hin%elem_of_map_to_list & Hg & Hn).
    split; [done|]. exists r. split; [|done]. unfold grant_entry. by rewrite Hin. }
  split; [split|].
  - intros He. by destruct (Hraise _ He).
  - intros (r & Hg & Hn).
    destruct (revoke_oauth_access self nodes a users u) as [out|e] eqn:Hrev.
    + apply revoke_oauth_access_Ok in Hrev as (_ & Hnodes & _).
      unfold grant_entry in Hg.
      destruct (oauth_grants self !! r) as [g|] eqn:Hr; [|by destruct Hg].
      destruct (nodes_with_grants_loop_loaded _ _ _ _ Hnodes r g) as [d Hd];
        [by apply elem_of_map_to_list|done|congruence].
    + by destruct (Hraise _ eq_refl) as [-> _].
  - intros e He. by destruct (Hraise _ He).
Qed.

Lemma nodes_with_grants_loop_none (nodes : gmap string bool) (acct : string)
    (items : list (string * gmap string metadata)) :
  (∀ r g, (r, g) ∈ items → g !! acct = None) →
  nodes_with_grants_loop nodes acct items = Ok [].
Proof.
  induction items as [|[n g] items IH]; intros Hnone; simpl; [done|].
  rewrite (proj2 (key_in_false acct g)) by (by eapply Hnone, elem_of_cons; left).
  apply IH. intros r g' Hin. eapply Hnone. by apply elem_of_cons; right.
Qed.

Lemma get_nodes_after_revoke (self : UserSettings) (nodes : gmap string bool) (a : string) :
  get_nodes_with_oauth_grants
    (set_oauth_grants (delete a <$> oauth_grants self) self) nodes a = Ok [].
Proof.
  unfold get_nodes_with_oauth_grants. apply nodes_with_grants_loop_none.
  intros r g Hin%elem_of_map_to_list. simpl in Hin.
  rewrite lookup_fmap in Hin. destruct (oauth_grants self !! r); simplify_eq/=.
  apply lookup_delete_eq.
Qed.

(** X7: a revocation is final and repeatable: afterwards no node has a
    grant for the account, whatever the node table, and revoking again
    succeeds, reaches no node and returns the same row. *)
Theorem revoke_oauth_access_twice (self : UserSettings) (nodes nodes' : gmap string bool)
    (a : string) (users users' : gset string) (u u' : string) (out : Revoked) :
  revoke_oauth_access self nodes a users u = Ok out →
  get_nodes_with_oauth_grants (revoked_settings out) nodes' a = Ok []
  ∧ ∃ out', revoke_oauth_access (revoked_settings out) nodes' a users' u' = Ok out'
            ∧ deauthorized out' = []
            ∧ revoked_settings out' = revoked_settings out.
Proof.
  intros (-> & _ & _)%revoke_oauth_access_Ok.
  split; [apply get_nodes_after_revoke|].
  unfold revoke_oauth_access. rewrite get_nodes_after_revoke. simpl.
  eexists. split; [done|]. split; [done|]. simpl.
  unfold set_oauth_grants. simpl. f_equal.
  apply map_eq; intros r. rewrite !lookup_fmap.
  destruct (oauth_grants self !! r); simpl; [|done]. by rewrite delete_delete_eq.
Qed.

Lemma revoke_oauth_access_twice_witness :
  ∃ out, revoke_oauth_access two_node_ledger two_nodes "a1" {[ "u1" ]} "u1" = Ok out
         ∧ get_nodes_with_oauth_grants (revoked_settings out) ∅ "a1" = Ok [].
Proof.
  eexists. split; [vm_compute; reflexivity|].
  match goal with
  | |- get_nodes_with_oauth_grants (revoked_settings ?o) _ _ = _ =>
      apply (revoke_oauth_access_twice two_node_ledger two_nodes ∅ "a1"
               {[ "u1" ]} ∅ "u1" "u1" o)
  end.
  vm_compute. reflexivity.
Defined.

(** *** Merging *)

Lemma entries_le_refl (d : gmap string metadata) : entries_le d d.
Proof. intros a m Hm. by exists m. Qed.

Lemma entries_le_trans (d1 d2 d3 : gmap string metadata) :
  entries_le d1 d2 → entries_le d2 d3 → entries_le d1 d3.
Proof.
  intros H12 H23 a m Hm. destruct (H12 a m Hm) as (m2 & Hm2 & Hsub).
  destruct (H23 a m2 Hm2) as (m3 & Hm3 & Hsub'). exists m3. split; [done|].
  by etrans.
Qed.

Lemma entries_le_insert_new (d : gmap string metadata) (a : string) (m : metadata) :
  d !! a = None → entries_le d (<[a := m]> d).
Proof.
  intros Hnone a' m' Hm'. exists m'. split; [|done].
  rewrite lookup_insert_ne; [done|]. intros <-. congruence.
Qed.

Lemma entries_le_insert_grow (d : gmap string metadata) (a : string) (m m' : metadata) :
  d !! a = Some m → m ⊆ m' → entries_le d (<[a := m']> d).
Proof.
  intros Hm Hsub a0 m0 Hm0. destruct (decide (a = a0)) as [<-|Hne].
  - exists m'. rewrite lookup_insert_eq. split; [done|]. by simplify_eq.
  - exists m0. by rewrite lookup_insert_ne.
Qed.

Lemma grants_le_refl (g : grants) : grants_le g g.
Proof. intros n d Hd. exists d. split; [done|apply entries_le_refl]. Qed.

Lemma grants_le_trans (g1 g2 g3 : grants) :
  grants_le g1 g2 → grants_le g2 g3 → grants_le g1 g3.
Proof.
  intros H12 H23 n d Hd. destruct (H12 n d Hd) as (d2 & Hd2 & Hle).
  destruct (H23 n d2 Hd2) as (d3 & Hd3 & Hle'). exists d3. split; [done|].
  by eapply entries_le_trans.
Qed.

Lemma grants_le_insert_new (g : grants) (n : string) (d : gmap string metadata) :
  g !! n = None → grants_le g (<[n := d]> g).
Proof.
  intros Hnone n' d' Hd'. exists d'. split; [|apply entries_le_refl].
  rewrite lookup_insert_ne; [done|]. intros <-. congruence.
Qed.

Lemma grants_le_insert_grow (g : grants) (n : string) (d d' : gmap string metadata) :
  g !! n = Some d → entries_le d d' → grants_le g (<[n := d']> g).
Proof.
  intros Hd Hle n0 d0 Hd0. destruct (decide (n = n0)) as [<-|Hne].
  - exists d'. rewrite lookup_insert_eq. split; [done|]. by simplify_eq.
  - exists d0. rewrite lookup_insert_ne by done. split; [done|apply entries_le_refl].
Qed.

(** The innermost loop either runs through, only adding keys, or stops
    with [ValueError] at a key that is not two characters long. *)
Lemma merge_meta_loop_cases (keys : list string) (dst : metadata) :
  (∃ d, merge_meta_loop dst keys = Ok d ∧ dst ⊆ d
        ∧ ∀ k, k ∈ keys → is_Some (unpack2 k))
  ∨ (merge_meta_loop dst keys = Raise ValueError
     ∧ ∃ k, k ∈ keys ∧ unpack2 k = None).
Proof.
  revert dst. induction keys as [|key keys IH]; intros dst; simpl.
  - left. exists dst. split; [done|]. split; [done|]. by intros k ?%elem_of_nil.
  - destruct (unpack2 key) as [[k v]|] eqn:Hkey.
    + destruct (IH (if negb (key_in k dst) then <[k := PStr v]> dst else dst))
        as [(d & Hd & Hsub & Hall)|(Hraise & k' & Hin & Hk')].
      * left. exists d. split; [done|]. split.
        -- etrans; [|exact Hsub]. destruct (key_in k dst) eqn:Hk; simpl; [done|].
           apply insert_subseteq. by apply key_in_false.
        -- intros k' [->|Hin]%elem_of_cons; [by rewrite Hkey|by apply Hall].
      * right. split; [done|]. exists k'. split; [by apply elem_of_cons; right|done].
    + right. split; [done|]. exists key. split; [by apply elem_of_cons; left|done].
Qed.

Lemma elem_of_keys (m : metadata) (k : string) :
  k ∈ (map_to_list m).*1 ↔ is_Some (m !! k).
Proof.
  rewrite list_elem_of_fmap. split.
  - intros ([k' v] & -> & Hin%elem_of_map_to_list). simpl. by rewrite Hin.
  - intros [v Hv]. exists (k, v). split; [done|]. by apply elem_of_map_to_list.
Qed.

(** The loop over the accounts of one resource. *)
Lemma merge_accounts_loop_cases (items : list (string * metadata))
    (dst : gmap string metadata) :
  NoDup items.*1 →
  (∃ d, merge_accounts_loop dst items = Ok d
        ∧ entries_le dst d
        ∧ (∀ a m, (a, m) ∈ items → is_Some (d !! a))
        ∧ (∀ a m k, (a, m) ∈ items → is_Some (dst !! a) → is_Some (m !! k) →
                    is_Some (unpack2 k)))
  ∨ (merge_accounts_loop dst items = Raise ValueError
     ∧ ∃ a m k, (a, m) ∈ items ∧ is_Some (dst !! a) ∧ is_Some (m !! k)
                ∧ unpack2 k = None).
Proof.
  revert dst. induction items as [|[a m] items IH]; intros dst Hnd; simpl.
  - left. exists dst. split; [done|]. split; [apply entries_le_refl|].
    split; [by intros a m ?%elem_of_nil|by intros a m k ?%elem_of_nil].
  - apply NoDup_cons in Hnd as [Ha Hnd].
    assert (∀ a' m', (a', m') ∈ items → a' ≠ a) as Hne.
    { intros a' m' Hin ->. apply Ha. apply list_elem_of_fmap. by exists (a, m'). }
    destruct (dst !! a) as [dm|] eqn:Hdst.
    + destruct (merge_meta_loop_cases (map_to_list m).*1 dm)
        as [(merged & -> & Hsub & Hall)|(-> & k & Hin & Hk)]; simpl.
      * destruct (IH (<[a := merged]> dst) Hnd)
          as [(d & Hd & Hle & Hcover & Hkeys)|(Hraise & a' & m' & k & Hin & Hsome & Hk & Hbad)].
        -- left. exists d. split; [done|].
           assert (entries_le dst d) as Hdst_le.
           { eapply entries_le_trans; [|exact Hle]. by eapply entries_le_insert_grow. }
           split; [done|]. split.
           ++ intros a' m' [[= -> ->]|Hin]%elem_of_cons; [|by eapply Hcover].
              destruct (Hdst_le a dm Hdst) as (m' & -> & _). eauto.
           ++ intros a' m' k [[= -> ->]|Hin]%elem_of_cons Hsome Hk.
              ** by apply Hall, elem_of_keys.
              ** eapply Hkeys; [done| |done]. rewrite lookup_insert_ne; [done|].
                 intros <-. by eapply Hne.
        -- right. split; [done|]. exists a', m', k.
           split; [by apply elem_of_cons; right|]. split; [|done].
           rewrite lookup_insert_ne in Hsome; [done|]. intros <-. by eapply Hne.
      * right. split; [done|]. exists a, m, k.
        split; [by apply elem_of_cons; left|]. split; [by rewrite Hdst|].
        split; [by apply elem_of_keys|done].
    + destruct (IH (<[a := m]> dst) Hnd)
        as [(d & Hd & Hle & Hcover & Hkeys)|(Hraise & a' & m' & k & Hin & Hsome & Hk & Hbad)].
      * left. exists d. split; [done|]. split.
        -- eapply entries_le_trans; [|exact Hle]. by apply entries_le_insert_new.
        -- split.
           ++ intros a' m' [[= -> ->]|Hin]%elem_of_cons; [|by eapply Hcover].
              destruct (Hle a m (lookup_insert_eq _ _ _)) as (m' & -> & _). eauto.
           ++ intros a' m' k [[= -> ->]|Hin]%elem_of_cons Hsome Hk.
              ** rewrite Hdst in Hsome. by destruct Hsome.
              ** eapply Hkeys; [done| |done]. rewrite lookup_insert_ne; [done|].
                 intros <-. by eapply Hne.
      * right. split; [done|]. exists a', m', k.
        split; [by apply elem_of_cons; right|]. split; [|done].
        rewrite lookup_insert_ne in Hsome; [done|]. intros <-. by eapply Hne.
Qed.

(** The loop over the resources of the source. *)
Lemma merge_nodes_loop_cases (items : list (string * gmap string metadata)) (dst : grants) :
  NoDup items.*1 →
  (∃ g, merge_nodes_loop dst items = Ok g
        ∧ grants_le dst g
        ∧ (∀ n data a, (n, data) ∈ items → is_Some (data !! a) →
                       ∃ d, g !! n = Some d ∧ is_Some (d !! a))
        ∧ (∀ n data d a m k, (n, data) ∈ items → dst !! n = Some d →
                             data !! a = Some m → is_Some (d !! a) →
                             is_Some (m !! k) → is_Some (unpack2 k)))
  ∨ (merge_nodes_loop dst items = Raise ValueError
     ∧ ∃ n data d a m k, (n, data) ∈ items ∧ dst !! n = Some d
                         ∧ data !! a = Some m ∧ is_Some (d !! a)
                         ∧ is_Some (m !! k) ∧ unpack2 k = None).
Proof.
  revert dst. induction items as [|[n data] items IH]; intros dst Hnd; simpl.
  - left. exists dst. split; [done|]. split; [apply grants_le_refl|].
    split; [by intros n data a ?%elem_of_nil|by intros n data d a m k ?%elem_of_nil].
  - apply NoDup_cons in Hnd as [Hn Hnd].
    assert (∀ n' data', (n', data') ∈ items → n' ≠ n) as Hne.
    { intros n' data' Hin ->. apply Hn. apply list_elem_of_fmap. by exists (n, data'). }
    destruct (dst !! n) as [dn|] eqn:Hdst.
    + destruct (merge_accounts_loop_cases (map_to_list data) dn (NoDup_fst_map_to_list _))
        as [(merged & -> & Hgrow & Hcover & Hkeys)|(-> & a & m & k & Hin & Hsome & Hk & Hbad)];
        simpl.
      * destruct (IH (<[n := merged]> dst) Hnd)
          as [(g & Hg & Hle & Hcov & Hks)
             |(Hraise & n' & data' & d & a & m & k & Hin & Hd & Hm & Hsome & Hk & Hbad)].
        -- left. exists g. split; [done|]. split.
           { eapply grants_le_trans; [|exact Hle]. by eapply grants_le_insert_grow. }
           split.
           ++ intros n' data' a [[= -> ->]|Hin]%elem_of_cons [m Hm]; [|by eapply Hcov].
              destruct (Hle n merged (lookup_insert_eq _ _ _)) as (d' & Hd' & Hle').
              exists d'. split; [done|].
              destruct (Hcover a m) as [m1 Hm1]; [by apply elem_of_map_to_list|].
              destruct (Hle' a m1 Hm1) as (m2 & -> & _). eauto.
           ++ intros n' data' d a m k [[= -> ->]|Hin]%elem_of_cons Hd Hm Hsome Hk.
              ** simplify_eq. eapply (Hkeys a m k); [by apply elem_of_map_to_list|done..].
              ** eapply (Hks n' data' d a m k); [done| |done..].
                 rewrite lookup_insert_ne; [done|]. intros <-. by eapply Hne.
        -- right. split; [done|]. exists n', data', d, a, m, k.
           split; [by apply elem_of_cons; right|]. split; [|done].
           rewrite lookup_insert_ne in Hd; [done|]. intros <-. by eapply Hne.
      * right. split; [done|]. exists n, data, dn, a, m, k.
        split; [by apply elem_of_cons; left|]. split; [done|].
        split; [by apply elem_of_map_to_list|done].
    + destruct (IH (<[n := data]> dst) Hnd)
        as [(g & Hg & Hle & Hcov & Hks)
           |(Hraise & n' & data' & d & a & m & k & Hin & Hd & Hm & Hsome & Hk & Hbad)].
      * left. exists g. split; [done|]. split.
        { eapply grants_le_trans; [|exact Hle]. by apply grants_le_insert_new. }
        split.
        -- intros n' data' a [[= -> ->]|Hin]%elem_of_cons [m Hm]; [|by eapply Hcov].
           destruct (Hle n data (lookup_insert_eq _ _ _)) as (d' & Hd' & Hle').
           exists d'. split; [done|].
           destruct (Hle' a m Hm) as (m2 & -> & _). eauto.
        -- intros n' data' d a m k [[= -> ->]|Hin]%elem_of_cons Hd Hm Hsome Hk.
           ** congruence.
           ** eapply (Hks n' data' d a m k); [done| |done..].
              rewrite lookup_insert_ne; [done|]. intros <-. by eapply Hne.
      * right. split; [done|]. exists n', data', d, a, m, k.
        split; [by apply elem_of_cons; right|]. split; [|done].
        rewrite lookup_insert_ne in Hd; [done|]. intros <-. by eapply Hne.
Qed.

Lemma grant_entry_Some (s : UserSettings) (n a : string) (m : metadata) :
  grant_entry s n a = Some m ↔ ∃ d, oauth_grants s !! n = Some d ∧ d !! a = Some m.
Proof.
  unfold grant_entry. destruct (oauth_grants s !! n) as [d|]; simpl.
  - split; [eauto|]. by intros (d' & [= <-] & ?).
  - split; [done|]. by intros (d' & ? & _).
Qed.

(** How [merge] ends, in terms of the entries of the two rows. *)
Lemma merge_cases (self user_settings : UserSettings) :
  addon user_settings = addon self →
  (∃ g, merge self user_settings
        = Ok (set_oauth_grants g self, set_oauth_grants ∅ user_settings)
        ∧ grants_le (oauth_grants self) g
        ∧ (∀ n a, is_Some (grant_entry user_settings n a) →
                  is_Some (grant_entry (set_oauth_grants g self) n a))
        ∧ (∀ n a m k, grant_entry user_settings n a = Some m →
                      is_Some (grant_entry self n a) → is_Some (m !! k) →
                      is_Some (unpack2 k)))
  ∨ (merge self user_settings = Raise ValueError
     ∧ ∃ n a m k, grant_entry user_settings n a = Some m
                  ∧ is_Some (grant_entry self n a)
                  ∧ is_Some (m !! k) ∧ unpack2 k = None).
Proof.
  intros Hcls. unfold merge. rewrite Hcls, String.eqb_refl. simpl.
  destruct (merge_nodes_loop_cases (map_to_list (oauth_grants user_settings))
              (oauth_grants self) (NoDup_fst_map_to_list _))
    as [(g & -> & Hle & Hcov & Hks)
       |(-> & n & data & d & a & m & k & Hin%elem_of_map_to_list & Hd & Hm & Hsome & Hk & Hbad)];
    simpl.
  - left. exists g. split; [done|]. split; [done|]. split.
    + intros n a [m (data & Hdata & Hm)%grant_entry_Some].
      destruct (Hcov n data a) as (d & Hd & [m' Hm']);
        [by apply elem_of_map_to_list|by rewrite Hm|].
      exists m'. apply grant_entry_Some. eauto.
    + intros n a m k (data & Hdata & Hm)%grant_entry_Some
        [m' (d & Hd & Hm')%grant_entry_Some] Hk.
      eapply (Hks n data d a m k); [by apply elem_of_map_to_list|done|done| |done].
      by rewrite Hm'.
  - right. split; [done|]. exists n, a, m, k.
    split; [apply grant_entry_Some; eauto|]. split; [|done].
    destruct Hsome as [m' Hm']. exists m'. apply grant_entry_Some. eauto.
Qed.

(** X8: how a merge fails.  It raises [TypeError] exactly for rows of
    different addons, and [ValueError] exactly when, the addons being the
    same, some pair held by both rows has a key in the source's metadata
    that is not two characters long; it raises nothing else, and in every
    other case it succeeds. *)
Theorem merge_failure (self user_settings : UserSettings) :
  (merge self user_settings = Raise TypeError ↔ addon user_settings ≠ addon self)
  ∧ (merge self user_settings = Raise ValueError
     ↔ addon user_settings = addon self
       ∧ ∃ n a m k, grant_entry user_settings n a = Some m
                    ∧ is_Some (grant_entry self n a)
                    ∧ is_Some (m !! k) ∧ unpack2 k = None)
  ∧ (∀ e, merge self user_settings = Raise e → e = TypeError ∨ e = ValueError).
Proof.
  destruct (decide (addon user_settings = addon self)) as [Hcls|Hcls].
  - destruct (merge_cases self user_settings Hcls)
      as [(g & Hg & _ & _ & Hkeys)|(Hraise & Hbad)]; rewrite ?Hg, ?Hraise.
    + split; [done|]. split; [|done]. split; [done|].
      intros (_ & n & a & m & k & Hm & Hsome & Hk & Hbad).
      destruct (Hkeys n a m k Hm Hsome Hk) as [? ?]. congruence.
    + split; [done|]. split; [done|]. intros e [= <-]. by right.
  - assert (merge self user_settings = Raise TypeError) as ->.
    { unfold merge. by rewrite (proj2 (String.eqb_neq _ _) Hcls). }
    split; [done|]. split; [|intros e [= <-]; by left].
    split; [done|]. by intros [? _].
Qed.

(** X9: a merge that succeeds takes nothing from the destination: every
    pair it held is still there with at least the metadata it had, its
    values unchanged, so that whatever verified before the merge verifies
    after it. *)
Theorem merge_keeps_destination (self user_settings dest source : UserSettings)
    (n a : string) :
  merge self user_settings = Ok (dest, source) →
  (∀ m, grant_entry self n a = Some m →
        ∃ m', grant_entry dest n a = Some m' ∧ m ⊆ m')
  ∧ (∀ md, verify_oauth_access self n a md = true →
           verify_oauth_access dest n a md = true).
Proof.
  intros Hmerge.
  assert (addon user_settings = addon self) as Hcls.
  { destruct (decide (addon user_settings = addon self)) as [|Hne]; [done|].
    unfold merge in Hmerge. by rewrite (proj2 (String.eqb_neq _ _) Hne) in Hmerge. }
  destruct (merge_cases self user_settings Hcls)
    as [(g & Hg & Hle & _)|(Hraise & _)]; [|congruence].
  rewrite Hg in Hmerge. injection Hmerge as <- <-.
  assert (∀ m, grant_entry self n a = Some m →
               ∃ m', grant_entry (set_oauth_grants g self) n a = Some m' ∧ m ⊆ m') as Hkeep.
  { intros m (d & Hd & Hm)%grant_entry_Some.
    destruct (Hle n d Hd) as (d' & Hd' & Hle').
    destruct (Hle' a m Hm) as (m' & Hm' & Hsub).
    exists m'. split; [|done]. apply grant_entry_Some. eauto. }
  split; [done|].
  intros md (granted & Hgranted & Hall)%verify_oauth_access_true.
  destruct (Hkeep granted Hgranted) as (m' & Hm' & Hsub).
  apply verify_oauth_access_true. exists m'. split; [done|].
  intros k v Hk. eapply lookup_weaken; [|exact Hsub]. by apply Hall.
Qed.

Lemma merge_keeps_destination_witness :
  ∃ dest source,
    merge granting_ledger two_account_ledger = Ok (dest, source)
    ∧ verify_oauth_access dest "r1" "a1" (Some {[ "folder" := PStr "5" ]}) = true.
Proof.
  eexists _, _. split; [vm_compute; reflexivity|].
  match goal with
  | |- verify_oauth_access ?d _ _ _ = _ =>
      eapply (merge_keeps_destination granting_ledger two_account_ledger d)
  end.
  - vm_compute. reflexivity.
  - vm_compute. reflexivity.
Defined.

(** X10: a merge that succeeds moves the source over: every pair the
    source held is held by the destination, the source is left with no
    grant at all and verifies nothing, and owner and accounts of both rows
    are as they were. *)
Theorem merge_moves_source (self user_settings dest source : UserSettings) :
  merge self user_settings = Ok (dest, source) →
  (∀ n a, is_Some (grant_entry user_settings n a) → is_Some (grant_entry dest n a))
  ∧ oauth_grants source = ∅
  ∧ (∀ n a md, verify_oauth_access source n a md = false)
  ∧ Ledger.owner dest = Ledger.owner self
  ∧ owner_external_accounts dest = owner_external_accounts self
  ∧ Ledger.owner source = Ledger.owner user_settings
  ∧ owner_external_accounts source = owner_external_accounts user_settings.
Proof.
  intros Hmerge.
  assert (addon user_settings = addon self) as Hcls.
  { destruct (decide (addon user_settings = addon self)) as [|Hne]; [done|].
    unfold merge in Hmerge. by rewrite (proj2 (String.eqb_neq _ _) Hne) in Hmerge. }
  destruct (merge_cases self user_settings Hcls)
    as [(g & Hg & _ & Hcov & _)|(Hraise & _)]; [|congruence].
  rewrite Hg in Hmerge. injection Hmerge as <- <-.
  split; [done|]. split; [done|]. split; [|done].
  intros n a md. unfold verify_oauth_access, grant_entry. simpl.
  by rewrite lookup_empty.
Qed.

Lemma merge_moves_source_witness :
  ∃ dest source,
    merge granting_ledger two_account_ledger = Ok (dest, source)
    ∧ oauth_grants source = ∅.
Proof.
  eexists _, _. split; [vm_compute; reflexivity|].
  match goal with
  | |- oauth_grants ?s = _ =>
      eapply (merge_moves_source granting_ledger two_account_ledger _ s)
  end.
  vm_compute. reflexivity.
Defined.

End LedgerLaws.

(** ** Further laws of node bindings *)

Module NodeLaws.
Import Ledger NodeBinding Provider NodeLifecycle Scenarios LedgerFacts NodeBindingFacts.
Import LedgerLaws.

(** X11: [set_auth] called without the log entry, the way [after_fork]
    calls it, binds the node to an account the user holds: the call saves
    the grant of the pair in the user's row, the binding it saves is
    authorized and complete, and it keeps node and folder.  Called with the
    log entry, which is the default, it saves the same grant and then
    raises at the logger, before the binding is saved.  For an account the
    user does not hold it raises [PermissionsError] and saves nothing,
    either way. *)
Theorem set_auth_authorizes (self : NodeSettings) (acct : string)
    (user_addon : UserSettings) (md : option metadata) :
  (is_Some (owner_external_accounts user_addon !! acct) →
   Ledger.has_auth user_addon = true →
   ∃ bound us,
     set_auth self acct user_addon md false = (Ok bound, Some us)
     ∧ grant_oauth_access user_addon (NodeBinding.owner self) acct md = Ok us
     ∧ user_settings bound = Some us
     ∧ has_auth bound = true ∧ complete bound = true
     ∧ binding_grant bound
       = Some (default ∅ md
               ∪ default ∅ (grant_entry user_addon (NodeBinding.owner self) acct))
     ∧ NodeBinding.owner bound = NodeBinding.owner self
     ∧ external_account bound = Some acct
     ∧ folder_id bound = folder_id self
     ∧ folder_name bound = folder_name self
     ∧ folder_path bound = folder_path self
     ∧ ∃ e, set_auth self acct user_addon md true = (Raise e, Some us))
  ∧ (owner_external_accounts user_addon !! acct = None →
     ∀ log, set_auth self acct user_addon md log = (Raise (PermissionsError ""), None)).
Proof.
  split.
  - intros Hown Hauth. unfold set_auth.
    rewrite grant_oauth_access_owned by done. simpl.
    eexists _, _. split; [done|]. split; [done|]. split; [done|].
    match goal with
    | |- has_auth ?b = _ ∧ _ =>
        assert (binding_grant b
                = Some (default ∅ md
                        ∪ default ∅ (grant_entry user_addon (NodeBinding.owner self) acct)))
          as Hgrant
    end.
    { unfold binding_grant. simpl. rewrite grant_entry_granted. by rewrite decide_True. }
    match goal with
    | |- has_auth ?b = _ ∧ _ =>
        assert (has_auth b = true ∧ complete b = true) as [-> ->]
          by (eapply bound_has_auth; [done|done|exact Hgrant|done])
    end.
    repeat (split; [done|]). by eexists.
  - intros Hnone log. unfold set_auth. by rewrite grant_oauth_access_not_owned.
Qed.

Lemma set_auth_authorizes_witness :
  (∃ bound us,
     set_auth (base_after_fork bound_node "f1") "a1" granting_ledger None false
     = (Ok bound, Some us)
     ∧ has_auth bound = true
     ∧ ∃ e, set_auth (base_after_fork bound_node "f1") "a1" granting_ledger None true
            = (Raise e, Some us)).
Proof.
  destruct (set_auth_authorizes (base_after_fork bound_node "f1") "a1" granting_ledger None)
    as [Hbind _].
  destruct Hbind as (bound & us & Hset & _ & _ & Hauth & _ & _ & _ & _ & _ & _ & _ & Hlog).
  - vm_compute. eauto.
  - vm_compute. reflexivity.
  - exists bound, us. split; [exact Hset|]. split; [exact Hauth|exact Hlog].
Defined.

(** X12: what a fork can come to.  The clone belongs to the fork.  It is
    either bare (no row, no account, no folder), or it is bound for the
    forking user, who then is the owner of the row the original is
    authorized by, and it keeps account and folder of the original.  The
    call fails only with [PermissionsError], when that owner no longer
    holds the account. *)
Theorem after_fork_outcomes (self : NodeSettings) (node fork user : string) :
  match after_fork self node fork user with
  | Ok clone =>
      NodeBinding.owner clone = fork
      ∧ ((user_settings clone = None ∧ external_account clone = None
          ∧ folder_id clone = None ∧ folder_name clone = None ∧ folder_path clone = None)
         ∨ (∃ us us', user_settings self = Some us ∧ Ledger.owner us = user
                      ∧ has_auth self = true
                      ∧ user_settings clone = Some us' ∧ Ledger.owner us' = user
                      ∧ external_account clone = external_account self
                      ∧ folder_id clone = folder_id self
                      ∧ folder_name clone = folder_name self
                      ∧ folder_path clone = folder_path self))
  | Raise e =>
      e = PermissionsError ""
      ∧ ∃ us a, user_settings self = Some us ∧ Ledger.owner us = user
                ∧ external_account self = Some a
                ∧ owner_external_accounts us !! a = None
  end.
Proof.
  unfold after_fork.
  destruct (user_settings self) as [us|] eqn:Hus; [|split; [done|by left]].
  destruct (external_account self) as [a|] eqn:Ha; [|split; [done|by left]].
  destruct (has_auth self) eqn:Hauth; simpl; [|split; [done|by left]].
  destruct (decide (Ledger.owner us = user)) as [Hown|Hown].
  - rewrite bool_decide_true by done. unfold set_auth.
    destruct (owner_external_accounts us !! a) as [p|] eqn:Hacct.
    + rewrite grant_oauth_access_owned by (by rewrite Hacct). simpl.
      split; [done|]. right. eexists us, _. repeat split; done.
    + rewrite grant_oauth_access_not_owned by done. simpl.
      split; [done|]. by exists us, a.
  - rewrite bool_decide_false by done. split; [done|by left].
Qed.

(** X13: taking the authorizing user off a node removes the node's grant
    and unbinds the node: afterwards the pair verifies for nothing, every
    other pair of the ledger is as before, and the binding has neither row
    nor account, while its folder selection is left in place. *)
Theorem after_remove_contributor_revokes (self : NodeSettings) (us : UserSettings)
    (removed a : string) (m : metadata) :
  user_settings self = Some us →
  Ledger.owner us = removed →
  external_account self = Some a →
  grant_entry us (NodeBinding.owner self) a = Some m →
  ∃ out saved,
    after_remove_contributor self removed = Ok out
    ∧ removed_settings out = Some saved
    ∧ message_returned out = true
    ∧ (∀ md, verify_oauth_access saved (NodeBinding.owner self) a md = false)
    ∧ (∀ n a', ¬ (n = NodeBinding.owner self ∧ a' = a) →
               grant_entry saved n a' = grant_entry us n a')
    ∧ user_settings (removed_binding out) = None
    ∧ external_account (removed_binding out) = None
    ∧ has_auth (removed_binding out) = false
    ∧ folder_id (removed_binding out) = folder_id self.
Proof.
  intros Hus Hown Ha (d & Hd & Hm)%grant_entry_Some.
  unfold after_remove_contributor.
  rewrite Hus, bool_decide_true, Hd, Ha, Hm by done.
  eexists _, _. split; [done|]. split; [done|]. split; [done|]. simpl.
  split; [|split; [|done]].
  - intros md. unfold verify_oauth_access, grant_entry. simpl.
    rewrite lookup_insert_eq. simpl. by rewrite lookup_delete_eq.
  - intros n a' Hother. unfold grant_entry. simpl.
    destruct (decide (n = NodeBinding.owner self)) as [->|Hn].
    + rewrite lookup_insert_eq, Hd. simpl. rewrite lookup_delete_ne; [done|].
      intros <-. by apply Hother.
    + by rewrite lookup_insert_ne.
Qed.

Lemma after_remove_contributor_revokes_witness :
  ∃ out saved,
    after_remove_contributor bound_node "u1" = Ok out
    ∧ removed_settings out = Some saved
    ∧ verify_oauth_access saved "r1" "a1" None = false
    ∧ folder_id (removed_binding out) = Some "5".
Proof.
  destruct (after_remove_contributor_revokes bound_node granting_ledger "u1" "a1"
              {[ "folder" := PStr "5" ]})
    as (out & saved & Hout & Hsaved & _ & Hverify & _ & _ & _ & _ & Hfolder);
    [reflexivity|reflexivity|reflexivity|vm_compute; reflexivity|].
  exists out, saved. split; [exact Hout|]. split; [exact Hsaved|].
  split; [apply Hverify|exact Hfolder].
Defined.

(** X14: when [after_remove_contributor] does nothing and when it fails.
    For a contributor who is not the owner of the binding's row, or for a
    binding without a row, binding and ledger are left alone and no message
    is returned.  For the owner it succeeds exactly when the ledger holds
    the grant the binding rests on; otherwise it raises. *)
Theorem after_remove_contributor_outcomes (self : NodeSettings) (removed : string) :
  ((∀ us, user_settings self = Some us → Ledger.owner us ≠ removed) →
   after_remove_contributor self removed
   = Ok {| removed_binding := self; removed_settings := None; message_returned := false |})
  ∧ (∀ us, user_settings self = Some us → Ledger.owner us = removed →
           ((∃ out, after_remove_contributor self removed = Ok out)
            ↔ is_Some (binding_grant self))).
Proof.
  unfold after_remove_contributor, binding_grant, grant_entry. split.
  - intros Hother. destruct (user_settings self) as [us|]; [|done].
    by rewrite bool_decide_false by (by apply Hother).
  - intros us -> Hown. rewrite bool_decide_true by done. simpl.
    destruct (oauth_grants us !! NodeBinding.owner self) as [d|]; simpl.
    + destruct (external_account self) as [a|]; simpl.
      * destruct (d !! a); simpl; split; eauto; try done; by intros [? ?].
      * split; [by intros [? ?]|by intros [? ?]].
    + destruct (external_account self); simpl;
        (split; [by intros [? ?]|by intros [? ?]]).
Qed.

Lemma after_remove_contributor_outcomes_witness :
  after_remove_contributor bound_node "u2"
  = Ok {| removed_binding := bound_node; removed_settings := None;
          message_returned := false |}.
Proof.
  apply (after_remove_contributor_outcomes bound_node "u2").
  intros us [= <-]. vm_compute. congruence.
Defined.

(** X15: the nodes [get_attached_nodes] yields are exactly the nodes that
    hold a grant for the account, are not deleted, and whose own settings
    use the account; after a revocation of the account there are none. *)
Theorem get_attached_nodes_spec (self : UserSettings) (nodes : gmap string bool)
    (addons : gmap string NodeSettings) (a : string) (attached : list string) :
  get_attached_nodes self nodes addons a = Ok attached →
  (∀ n, n ∈ attached
        ↔ is_Some (grant_entry self n a) ∧ nodes !! n = Some false
          ∧ ∃ node_settings, addons !! n = Some node_settings
                             ∧ external_account node_settings = Some a)
  ∧ (∀ users u out nodes' addons',
       revoke_oauth_access self nodes a users u = Ok out →
       get_attached_nodes (revoked_settings out) nodes' addons' a = Ok []).
Proof.
  unfold get_attached_nodes.
  destruct (get_nodes_with_oauth_grants self nodes a) as [granted|] eqn:Hgranted; [|done].
  simpl. intros [= <-]. split.
  - intros n. rewrite list_elem_of_In, filter_In, <- list_elem_of_In.
    unfold get_nodes_with_oauth_grants in Hgranted.
    rewrite (nodes_with_grants_loop_elem _ _ _ _ Hgranted n).
    unfold uses_account, grant_entry. split.
    + intros [(g & Hin%elem_of_map_to_list & Hg & Hn) Huses]. rewrite Hin. simpl.
      split; [done|]. split; [done|].
      destruct (addons !! n) as [ns|]; [|done].
      exists ns. split; [done|]. by apply bool_decide_eq_true in Huses.
    + intros (Hg & Hn & ns & Hns & Hacct).
      destruct (oauth_grants self !! n) as [g|] eqn:Hr; [|by destruct Hg].
      split.
      * exists g. split; [by apply elem_of_map_to_list|done].
      * rewrite Hns. by apply bool_decide_eq_true.
  - intros users u out nodes' addons' (-> & _ & _)%revoke_oauth_access_Ok.
    by rewrite get_nodes_after_revoke.
Qed.

Lemma get_attached_nodes_spec_witness :
  "r2" ∈ ["r2"]
  ↔ is_Some (grant_entry two_node_ledger "r2" "a1") ∧ two_nodes !! "r2" = Some false
    ∧ ∃ node_settings, attached_addons !! "r2" = Some node_settings
                       ∧ external_account node_settings = Some "a1".
Proof.
  apply (get_attached_nodes_spec two_node_ledger two_nodes attached_addons "a1" ["r2"]).
  vm_compute. reflexivity.
Defined.

End NodeLaws.

(** ** Further laws of the handshake *)

Module HandshakeLaws.
Import Provider Handshake Scenarios LedgerFacts.


(** What the world looks like after a payload was stored. *)
Lemma set_external_account_stored (self : ExternalProvider) (w : World) (user : string)
    (info : gmap string pyval) (now : Z) (pid : string) (key : pyval)
    (saved : ExternalAccount) :
  info !! "provider_id" = Some (PStr pid) →
  info !! "key" = Some key →
  assign_account self
    (default (blank_account (short_name self) pid) (accounts w !! (short_name self, pid)))
    key info now = Ok saved →
  _set_external_account self w user info now
  = (Ok true,
     {| oauth_states := delete (short_name self) <$> oauth_states w;
        accounts := <[(short_name self, pid) := saved]> (accounts w);
        user_accounts :=
          if bool_decide ((short_name self, pid) ∈ default ∅ (user_accounts w !! user))
          then user_accounts w
          else <[user := {[ (short_name self, pid) ]} ∪ default ∅ (user_accounts w !! user)]>
                 (user_accounts w) |}).
Proof. intros Hpid Hkey Hsaved. unfold _set_external_account. by rewrite Hpid, Hkey, Hsaved. Qed.

(** A payload is stored only when it names the provider's account and a
    key and passes the columns. *)
Lemma set_external_account_Ok (self : ExternalProvider) (w w' : World) (user : string)
    (info : gmap string pyval) (now : Z) (b : bool) :
  _set_external_account self w user info now = (Ok b, w') →
  ∃ pid key saved,
    info !! "provider_id" = Some (PStr pid)
    ∧ info !! "key" = Some key
    ∧ assign_account self
        (default (blank_account (short_name self) pid)
           (accounts w !! (short_name self, pid)))
        key info now = Ok saved.
Proof.
  unfold _set_external_account.
  destruct (info !! "provider_id") as [[|pid| |]|]; try done.
  destruct (info !! "key") as [key|]; [|done].
  destruct (assign_account _ _ key info now) as [saved|] eqn:Hsaved; [|done].
  intros _. by exists pid, key, saved.
Qed.

Lemma pending_cleared (states : option (gmap string (gmap string string))) (p : string) :
  (delete p <$> states) ≫= (.!! p) = None.
Proof. destruct states; simpl; [apply lookup_delete_eq|done]. Qed.

Lemma auth_url_Ok (self : ExternalProvider) (w w1 : World) (url state u : string)
    (request_token : result (gmap string string)) :
  auth_url self w url state request_token = (Ok u, w1) →
  accounts w1 = accounts w
  ∧ user_accounts w1 = user_accounts w
  ∧ ∃ pending,
      oauth_states w1 = Some (<[short_name self := pending]> (default ∅ (oauth_states w)))
      ∧ pending !! pending_key (_oauth_version self)
        = match _oauth_version self, request_token with
          | OAUTH2, _ => Some state
          | OAUTH1, Ok response => response !! "oauth_token"
          | OAUTH1, Raise _ => None
          end.
Proof.
  unfold auth_url. destruct (_oauth_version self); simpl.
  - destruct request_token as [response|e]; [|done]. intros [= <- <-]. simpl.
    split; [done|]. split; [done|]. eexists. split; [done|].
    unfold temporary_credentials.
    destruct (response !! "oauth_token") as [t|] eqn:Ht,
             (response !! "oauth_token_secret") as [sec|]; simpl;
      rewrite ?lookup_insert_ne by done; rewrite ?lookup_insert_eq; done.
  - intros [= <- <-]. simpl. split; [done|]. split; [done|].
    eexists. split; [done|]. apply lookup_singleton_eq.
Qed.

Lemma assign_account_Ok (self : ExternalProvider) (acct saved : ExternalAccount)
    (key : pyval) (info : gmap string pyval) (now : Z) :
  assign_account self acct key info now = Ok saved →
  text_column key = Ok (oauth_key saved)
  ∧ text_column (dict_get info "secret") = Ok (oauth_secret saved)
  ∧ datetime_column (dict_get info "expires_at") = Ok (expires_at saved)
  ∧ text_column (dict_get info "refresh_token") = Ok (refresh_token saved)
  ∧ date_last_refreshed saved = Some now
  ∧ provider saved = provider acct
  ∧ provider_id saved = provider_id acct
  ∧ provider_name saved = name self
  ∧ scopes saved = scopes acct.
Proof.
  unfold assign_account.
  destruct (text_column key); [|done]. simpl.
  destruct (text_column (dict_get info "secret")); [|done]. simpl.
  destruct (datetime_column (dict_get info "expires_at")); [|done]. simpl.
  destruct (text_column (dict_get info "refresh_token")); [|done]. simpl.
  destruct (text_column (dict_get info "display_name")); [|done]. simpl.
  destruct (text_column (dict_get info "profile_url")); [|done]. simpl.
  by intros [= <-].
Qed.

(** A callback that repeats the pending value and reports no error gets
    as far as the token exchange. *)
Lemma auth_callback_accepted (self : ExternalProvider) (w : World) (user : string)
    (args : gmap string string) (reply : result (gmap string pyval))
    (hook : gmap string pyval → result (gmap string pyval)) (now : Z)
    (pending : gmap string string) :
  args !! "error" = None →
  oauth_states w ≫= (.!! short_name self) = Some pending →
  pending !! pending_key (_oauth_version self)
    = args !! callback_key (_oauth_version self) →
  auth_callback self w user args reply hook now
  = match match _oauth_version self with
          | OAUTH1 => reply
          | OAUTH2 => fetch_token reply
          end with
    | Raise e => (Raise e, w)
    | Ok response =>
        match info ← _default_handle_callback self response;
              extra ← hook response; Ok (extra ∪ info) with
        | Raise e => (Raise e, w)
        | Ok info => _set_external_account self w user info now
        end
    end.
Proof.
  intros Herr Hpending Hsame. unfold auth_callback.
  rewrite (proj2 (key_in_false "error" args)) by done. rewrite Hpending.
  destruct (_oauth_version self); simpl in Hsame; by rewrite bool_decide_false by (by intros ?).
Qed.

(** X17: a handshake that is begun can be completed.  When the callback
    repeats the pending value and reports no error, the provider hands over
    a token response, and the payload made of it names an account and
    passes the columns, [auth_callback] returns [True]: the account is
    stored under the provider and its id with the payload's key, the user
    holds it, and the handshake is no longer pending. *)
Theorem handshake_round_trip (self : ExternalProvider) (w w1 : World) (user : string)
    (url state u : string) (request_token : result (gmap string string))
    (args : gmap string string) (response info extra : gmap string pyval)
    (hook : gmap string pyval → result (gmap string pyval)) (now : Z)
    (pid : string) (key : pyval) (saved : ExternalAccount) :
  auth_url self w url state request_token = (Ok u, w1) →
  args !! "error" = None →
  args !! callback_key (_oauth_version self)
    = match _oauth_version self, request_token with
      | OAUTH2, _ => Some state
      | OAUTH1, Ok token => token !! "oauth_token"
      | OAUTH1, Raise _ => None
      end →
  _default_handle_callback self response = Ok info →
  hook response = Ok extra →
  (extra ∪ info) !! "provider_id" = Some (PStr pid) →
  (extra ∪ info) !! "key" = Some key →
  assign_account self
    (default (blank_account (short_name self) pid) (accounts w !! (short_name self, pid)))
    key (extra ∪ info) now = Ok saved →
  ∃ w2, auth_callback self w1 user args (Ok response) hook now = (Ok true, w2)
        ∧ accounts w2 !! (short_name self, pid) = Some saved
        ∧ text_column key = Ok (oauth_key saved)
        ∧ date_last_refreshed saved = Some now
        ∧ (short_name self, pid) ∈ default ∅ (user_accounts w2 !! user)
        ∧ oauth_states w2 ≫= (.!! short_name self) = None.
Proof.
  intros (Haccts & Husers & pending & Hstates & Hpending)%auth_url_Ok
    Herr Hargs Hinfo Hextra Hpid Hkey Hsaved.
  rewrite (auth_callback_accepted self w1 user args (Ok response) hook now pending);
    [|done| |congruence].
  2:{ rewrite Hstates. simpl. apply lookup_insert_eq. }
  assert (match _oauth_version self with
          | OAUTH1 => Ok response
          | OAUTH2 => fetch_token (Ok response)
          end = Ok response) as -> by (by destruct (_oauth_version self)).
  rewrite Hinfo, Hextra. simpl.
  rewrite <- Haccts in Hsaved.
  rewrite (set_external_account_stored self w1 user _ now pid key saved) by done.
  eexists. split; [done|]. simpl. split; [apply lookup_insert_eq|].
  destruct (assign_account_Ok _ _ _ _ _ _ Hsaved) as (Hk & _ & _ & _ & Hdate & _).
  split; [done|]. split; [done|]. split; [|apply pending_cleared].
  case_bool_decide as Hin; [done|].
  rewrite lookup_insert_eq. simpl. apply elem_of_union. left. by apply elem_of_singleton.
Qed.

Lemma handshake_round_trip_witness :
  ∃ w2, auth_callback box_provider
          (snd (auth_url box_provider pending_world "https://box/authorize" "s2" (Ok ∅)))
          "u1" {[ "state" := "s2"; "code" := "abc" ]}
          (Ok {[ "access_token" := PStr "T"; "refresh_token" := PStr "R" ]}) box_hook 5
        = (Ok true, w2)
        ∧ oauth_states w2 ≫= (.!! "box") = None.
Proof.
  destruct (handshake_round_trip box_provider pending_world
              (snd (auth_url box_provider pending_world "https://box/authorize" "s2" (Ok ∅)))
              "u1" "https://box/authorize" "s2" "https://box/authorize" (Ok ∅)
              {[ "state" := "s2"; "code" := "abc" ]}
              {[ "access_token" := PStr "T"; "refresh_token" := PStr "R" ]}
              {[ "key" := PStr "T"; "refresh_token" := PStr "R" ]}
              {[ "provider_id" := PStr "42"; "display_name" := PStr "Ada" ]}
              box_hook 5 "42" (PStr "T")
              {| provider := "box"; provider_id := "42"; provider_name := "Box";
                 oauth_key := Some "T"; oauth_secret := None; refresh_token := Some "R";
                 date_last_refreshed := Some 5; expires_at := None; scopes := [];
                 display_name := Some "Ada"; profile_url := None |})
    as (w2 & Hcallback & _ & _ & _ & _ & Hcleared);
    [vm_compute; reflexivity ..|].
  exists w2. split; [exact Hcallback|exact Hcleared].
Defined.

(** X18: a handshake can be completed once.  After [auth_callback] has
    returned [True], any further callback for the provider that reports no
    error is turned down as an unknown flow and changes nothing. *)
Theorem auth_callback_replay (self : ExternalProvider) (w w' : World) (user user' : string)
    (args args' : gmap string string) (reply reply' : result (gmap string pyval))
    (hook hook' : gmap string pyval → result (gmap string pyval)) (now now' : Z) :
  auth_callback self w user args reply hook now = (Ok true, w') →
  args' !! "error" = None →
  auth_callback self w' user' args' reply' hook' now'
  = (Raise (PermissionsError "OAuth flow not recognized."), w').
Proof.
  intros Hfirst Herr.
  assert (oauth_states w' ≫= (.!! short_name self) = None) as Hnone.
  { revert Hfirst. unfold auth_callback.
    destruct (key_in "error" args); [done|].
    destruct (oauth_states w ≫= (.!! short_name self)) as [pending|]; [|done].
    destruct (match _oauth_version self with OAUTH1 => _ | OAUTH2 => _ end)
      as [response|]; [|done].
    destruct (_default_handle_callback self response ≫= _) as [info|]; [|done].
    intros Hset.
    destruct (set_external_account_Ok _ _ _ _ _ _ _ Hset) as (pid & key & saved & ? & ? & ?).
    rewrite (set_external_account_stored self w user info now pid key saved) in Hset by done.
    injection Hset as <-. simpl. apply pending_cleared. }
  unfold auth_callback.
  rewrite (proj2 (key_in_false "error" args')) by done. by rewrite Hnone.
Qed.

Lemma auth_callback_replay_witness :
  auth_callback box_provider
    (snd (auth_callback box_provider pending_world "u1" {[ "state" := "s1" ]}
            (Ok {[ "access_token" := PStr "T" ]}) box_hook 5))
    "u1" {[ "state" := "s1" ]} (Ok {[ "access_token" := PStr "T" ]}) box_hook 6
  = (Raise (PermissionsError "OAuth flow not recognized."),
     snd (auth_callback box_provider pending_world "u1" {[ "state" := "s1" ]}
            (Ok {[ "access_token" := PStr "T" ]}) box_hook 5)).
Proof.
  apply (auth_callback_replay box_provider pending_world _ "u1" "u1"
           {[ "state" := "s1" ]} {[ "state" := "s1" ]}
           (Ok {[ "access_token" := PStr "T" ]}) (Ok {[ "access_token" := PStr "T" ]})
           box_hook box_hook 5 6).
  - vm_compute. reflexivity.
  - vm_compute. reflexivity.
Defined.

End HandshakeLaws.

(** ** Further laws of stored credentials *)

Module CredentialLaws.
Import Provider Handshake Scenarios LedgerFacts ProviderFacts HandshakeLaws.



Lemma set_if_truthy_lookup (key k : string) (value : pyval) (values : gmap string pyval) :
  set_if_truthy key value values !! k
  = if decide (key = k ∧ truthy value = true) then Some value else values !! k.
Proof.
  unfold set_if_truthy. destruct (truthy value) eqn:Ht.
  - rewrite lookup_insert. destruct (decide (key = k)) as [->|Hne].
    + by rewrite decide_True.
    + by rewrite decide_False by (by intros [? _]).
  - by rewrite decide_False by (by intros [_ ?]).
Qed.

(** X20: the payload [_default_handle_callback] makes of a token response
    holds no empty value: whatever it contains is truthy, so that a field
    the response lacks, or gives as an empty text, is left out.  Its [key]
    is the response's token ([oauth_token] for OAuth1, [access_token] for
    OAuth2) when that is truthy.  An OAuth1 payload has nothing but [key]
    and [secret], and an OAuth2 payload never has a [secret]. *)
Theorem default_handle_callback_normalizes (self : ExternalProvider)
    (data values : gmap string pyval) :
  _default_handle_callback self data = Ok values →
  (∀ k v, values !! k = Some v → truthy v = true)
  ∧ (∀ v, values !! "key" = Some v
          ↔ truthy v = true
            ∧ dict_get data match _oauth_version self with
                            | OAUTH1 => "oauth_token"
                            | OAUTH2 => "access_token"
                            end = v)
  ∧ match _oauth_version self with
    | OAUTH1 => ∀ k, is_Some (values !! k) → k = "key" ∨ k = "secret"
    | OAUTH2 => values !! "secret" = None
    end.
Proof.
  unfold _default_handle_callback. destruct (_oauth_version self).
  - intros [= <-]. split; [|split].
    + intros k v. rewrite !set_if_truthy_lookup, lookup_empty.
      repeat case_decide; intuition (simplify_eq; auto).
    + intros v. rewrite !set_if_truthy_lookup, lookup_empty.
      repeat case_decide; intuition (simplify_eq; auto).
    + intros k. rewrite !set_if_truthy_lookup, lookup_empty.
      repeat case_decide; intros [? ?]; intuition (simplify_eq; auto).
  - set (base := set_if_truthy "refresh_token" _ _).
    assert (∀ k v, base !! k = Some v → truthy v = true) as Htruthy.
    { intros k v. unfold base. rewrite !set_if_truthy_lookup, lookup_empty.
      repeat case_decide; intuition (simplify_eq; auto). }
    assert (∀ v, base !! "key" = Some v
                 ↔ truthy v = true ∧ dict_get data "access_token" = v) as Hkey.
    { intros v. unfold base. rewrite !set_if_truthy_lookup, lookup_empty.
      repeat case_decide; intuition (simplify_eq; auto). }
    assert (base !! "secret" = None) as Hsecret.
    { unfold base. rewrite !set_if_truthy_lookup, lookup_empty.
      repeat case_decide; intuition (simplify_eq; auto). }
    destruct (truthy (dict_get data "expires_at")).
    + destruct (dict_get data "expires_at") as [|t|z|t]; simpl; try done.
      intros [= <-]. split; [|split].
      * intros k v [[<- <-]|[_ Hk]]%lookup_insert_Some; [done|by eapply Htruthy].
      * intros v. by rewrite lookup_insert_ne.
      * by rewrite lookup_insert_ne.
    + by intros [= <-].
Qed.

Lemma default_handle_callback_normalizes_witness :
  truthy (PStr "T") = true
  ∧ dict_get {[ "access_token" := PStr "T"; "refresh_token" := PStr ""; "scope" := PNone ]}
      "access_token" = PStr "T".
Proof.
  destruct (default_handle_callback_normalizes box_provider
              {[ "access_token" := PStr "T"; "refresh_token" := PStr ""; "scope" := PNone ]}
              {[ "key" := PStr "T" ]}) as (_ & Hkey & _).
  - vm_compute. reflexivity.
  - apply (Hkey (PStr "T")). vm_compute. reflexivity.
Defined.

(** X21: storing a payload whose [provider_id], if it has one, is text
    concerns one account and one user.  Whatever the outcome, every account
    other than the one the payload names is as before, no account
    disappears, an account that existed keeps its provider, its id and its
    scopes, the accounts of other users are as before, and the user loses
    none. *)
Theorem set_external_account_frame (self : ExternalProvider) (w : World) (user : string)
    (info : gmap string pyval) (now : Z) :
  (∀ v, info !! "provider_id" = Some v → ∃ pid, v = PStr pid) →
  let w' := snd (_set_external_account self w user info now) in
  (∀ k, (∀ pid, info !! "provider_id" = Some (PStr pid) → k ≠ (short_name self, pid)) →
        accounts w' !! k = accounts w !! k)
  ∧ (∀ k, is_Some (accounts w !! k) → is_Some (accounts w' !! k))
  ∧ (∀ k acct acct', accounts w !! k = Some acct → accounts w' !! k = Some acct' →
                     provider acct' = provider acct
                     ∧ provider_id acct' = provider_id acct
                     ∧ scopes acct' = scopes acct)
  ∧ (∀ u, u ≠ user → user_accounts w' !! u = user_accounts w !! u)
  ∧ (∀ k, k ∈ default ∅ (user_accounts w !! user) →
          k ∈ default ∅ (user_accounts w' !! user)).
Proof.
  intros Htext. unfold _set_external_account.
  destruct (info !! "provider_id") as [v|] eqn:Hpid; simpl;
    [|split; [done|]; split; [done|]; split; [by intros k acct acct' -> [= <-]|done]].
  destruct (Htext v eq_refl) as [pid ->].
  set (k0 := (short_name self, pid)).
  set (acct0 := default (blank_account (short_name self) pid) (accounts w !! k0)).
  assert (∀ saved,
            (∀ acct, accounts w !! k0 = Some acct →
                     provider saved = provider acct ∧ provider_id saved = provider_id acct
                     ∧ scopes saved = scopes acct) →
            (∀ k, (∀ pid', Some (PStr pid) = Some (PStr pid') → k ≠ (short_name self, pid')) →
                  <[k0 := saved]> (accounts w) !! k = accounts w !! k)
            ∧ (∀ k, is_Some (accounts w !! k) → is_Some (<[k0 := saved]> (accounts w) !! k))
            ∧ (∀ k acct acct', accounts w !! k = Some acct →
                               <[k0 := saved]> (accounts w) !! k = Some acct' →
                               provider acct' = provider acct
                               ∧ provider_id acct' = provider_id acct
                               ∧ scopes acct' = scopes acct)) as Haccts.
  { intros saved Hid. split; [|split].
    - intros k Hk. rewrite lookup_insert_ne; [done|]. intros <-. by eapply Hk.
    - intros k Hk. rewrite lookup_insert. by case_decide.
    - intros k acct acct' Hacct. rewrite lookup_insert. case_decide as Hk.
      + subst k. intros [= <-]. by apply Hid.
      + rewrite Hacct. by intros [= <-]. }
  assert (∀ acct, accounts w !! k0 = Some acct → acct0 = acct) as Hacct0.
  { intros acct Hacct. unfold acct0. by rewrite Hacct. }
  destruct (info !! "key") as [key|]; simpl.
  - destruct (assign_account self acct0 key info now) as [saved|] eqn:Hsaved; simpl.
    + destruct (assign_account_Ok _ _ _ _ _ _ Hsaved) as (_ & _ & _ & _ & _ & Hp & Hi & _ & Hs).
      destruct (Haccts saved) as (H1 & H2 & H3).
      { intros acct Hacct. rewrite <- (Hacct0 acct Hacct). done. }
      split; [done|]. split; [done|]. split; [done|]. split.
      * intros u Hu. case_bool_decide; [done|]. by rewrite lookup_insert_ne.
      * intros k Hk. case_bool_decide; [done|]. rewrite lookup_insert_eq. simpl.
        apply elem_of_union. by right.
    + destruct (Haccts acct0) as (H1 & H2 & H3).
      { intros acct Hacct. by rewrite (Hacct0 acct Hacct). }
      done.
  - destruct (Haccts acct0) as (H1 & H2 & H3).
    { intros acct Hacct. by rewrite (Hacct0 acct Hacct). }
    done.
Qed.

Lemma set_external_account_frame_witness :
  user_accounts (snd (_set_external_account box_provider pending_world "u2" key_only_info 7))
    !! "u1"
  = user_accounts pending_world !! "u1".
Proof.
  destruct (set_external_account_frame box_provider pending_world "u2" key_only_info 7)
    as (_ & _ & _ & Hothers & _).
  - intros v Hv. exists "42". vm_compute in Hv. congruence.
  - apply (Hothers "u1"). congruence.
Defined.

(** Assigning the same payload to an account of the same identity at
    another time gives the same row but for the refresh date. *)
Lemma assign_account_again (self : ExternalProvider) (acct acct' saved : ExternalAccount)
    (key : pyval) (info : gmap string pyval) (now now' : Z) :
  assign_account self acct key info now = Ok saved →
  provider acct' = provider acct → provider_id acct' = provider_id acct →
  scopes acct' = scopes acct →
  assign_account self acct' key info now' = Ok (set_date_last_refreshed now' saved).
Proof.
  unfold assign_account. intros Hsaved Hp Hi Hs. revert Hsaved.
  destruct (text_column key); [|done]. simpl.
  destruct (text_column (dict_get info "secret")); [|done]. simpl.
  destruct (datetime_column (dict_get info "expires_at")); [|done]. simpl.
  destruct (text_column (dict_get info "refresh_token")); [|done]. simpl.
  destruct (text_column (dict_get info "display_name")); [|done]. simpl.
  destruct (text_column (dict_get info "profile_url")); [|done]. simpl.
  intros [= <-]. unfold set_date_last_refreshed. simpl. by rewrite Hp, Hi, Hs.
Qed.

(** X22: storing the same payload again changes nothing but the refresh
    date.  After a call that returned [True], a second call with the same
    payload at the time [now'] returns [True] and leaves the world the
    first call left, except that the account's refresh date is [now']: the
    session, the users' accounts and every other field and account are the
    same.  The two calls together leave what a single call at [now'] would
    have left. *)
Theorem set_external_account_idempotent (self : ExternalProvider) (w w' : World)
    (user : string) (info : gmap string pyval) (now now' : Z) :
  _set_external_account self w user info now = (Ok true, w') →
  ∃ pid saved,
    info !! "provider_id" = Some (PStr pid)
    ∧ accounts w' !! (short_name self, pid) = Some saved
    ∧ _set_external_account self w' user info now'
      = (Ok true,
         {| oauth_states := oauth_states w';
            accounts :=
              <[(short_name self, pid) := set_date_last_refreshed now' saved]> (accounts w');
            user_accounts := user_accounts w' |})
    ∧ _set_external_account self w' user info now'
      = _set_external_account self w user info now'.
Proof.
  intros Hset.
  destruct (set_external_account_Ok _ _ _ _ _ _ _ Hset)
    as (pid & key & saved & Hpid & Hkey & Hsaved).
  rewrite (set_external_account_stored self w user info now pid key saved) in Hset by done.
  injection Hset as <-.
  destruct (assign_account_Ok _ _ _ _ _ _ Hsaved) as (_ & _ & _ & _ & _ & Hp & Hi & _ & Hs).
  exists pid, saved. split; [done|]. simpl. split; [apply lookup_insert_eq|].
  rewrite (set_external_account_stored self w user info now' pid key
             (set_date_last_refreshed now' saved));
    [|done|done|by eapply assign_account_again].
  rewrite (set_external_account_stored self _ user info now' pid key
             (set_date_last_refreshed now' saved)); [|done|done|].
  - simpl.
    assert (delete (short_name self) <$> (delete (short_name self) <$> oauth_states w)
            = delete (short_name self) <$> oauth_states w) as ->.
    { destruct (oauth_states w); simpl; [|done]. by rewrite delete_delete_eq. }
    match goal with
    | |- context [(Ok true, {| oauth_states := _; accounts := _; user_accounts := ?u |})] =>
        assert (u = (if bool_decide ((short_name self, pid)
                                     ∈ default ∅ (user_accounts w !! user))
                     then user_accounts w
                     else <[user := {[ (short_name self, pid) ]}
                                    ∪ default ∅ (user_accounts w !! user)]>
                            (user_accounts w))) as ->
    end.
    { destruct (bool_decide ((short_name self, pid)
                             ∈ default ∅ (user_accounts w !! user))) eqn:Hin.
      - by rewrite Hin.
      - rewrite bool_decide_true; [done|]. rewrite lookup_insert_eq. simpl.
        apply elem_of_union. left. by apply elem_of_singleton. }
    split; [done|]. by rewrite insert_insert_eq.
  - simpl. rewrite lookup_insert_eq. simpl. by eapply assign_account_again.
Qed.

Lemma set_external_account_idempotent_witness :
  ∃ saved,
    accounts (snd (_set_external_account box_provider pending_world "u2" key_only_info 7))
      !! ("box", "42") = Some saved
    ∧ _set_external_account box_provider
        (snd (_set_external_account box_provider pending_world "u2" key_only_info 7))
        "u2" key_only_info 9
      = _set_external_account box_provider pending_world "u2" key_only_info 9.
Proof.
  destruct (set_external_account_idempotent box_provider pending_world
              (snd (_set_external_account box_provider pending_world "u2" key_only_info 7))
              "u2" key_only_info 7 9)
    as (pid & saved & Hpid & Hsaved & _ & Hsame).
  - vm_compute. reflexivity.
  - assert (pid = "42") as -> by (vm_compute in Hpid; congruence).
    exists saved. split; [exact Hsaved|exact Hsame].
Defined.

(** X23: a payload that cannot be stored.  Without a [provider_id] the
    call raises [KeyError] and changes nothing.  With a [provider_id] but
    without a [key] it raises [KeyError] after [get_or_create]: an account
    that was not there is left behind as an empty row, the other accounts,
    the users and the pending handshake are as before. *)
Theorem set_external_account_missing_key (self : ExternalProvider) (w : World)
    (user : string) (info : gmap string pyval) (now : Z) :
  (info !! "provider_id" = None →
   _set_external_account self w user info now = (Raise (KeyError "provider_id"), w))
  ∧ (∀ pid, info !! "provider_id" = Some (PStr pid) → info !! "key" = None →
       ∃ w', _set_external_account self w user info now = (Raise (KeyError "key"), w')
             ∧ accounts w' !! (short_name self, pid)
               = Some (default (blank_account (short_name self) pid)
                         (accounts w !! (short_name self, pid)))
             ∧ (∀ k, k ≠ (short_name self, pid) → accounts w' !! k = accounts w !! k)
             ∧ user_accounts w' = user_accounts w
             ∧ oauth_states w' = oauth_states w).
Proof.
  unfold _set_external_account. split.
  - by intros ->.
  - intros pid -> ->. eexists. split; [done|]. simpl.
    split; [apply lookup_insert_eq|]. split; [|done].
    intros k Hk. by rewrite lookup_insert_ne.
Qed.

Lemma set_external_account_missing_key_witness :
  ∃ w', _set_external_account box_provider pending_world "u1"
          {[ "provider_id" := PStr "77" ]} 7 = (Raise (KeyError "key"), w')
        ∧ accounts w' !! ("box", "77") = Some (blank_account "box" "77").
Proof.
  destruct (set_external_account_missing_key box_provider pending_world "u1"
              {[ "provider_id" := PStr "77" ]} 7) as [_ Hkey].
  destruct (Hkey "77") as (w' & Hset & Hrow & _); [vm_compute; reflexivity ..|].
  exists w'. split; [exact Hset|exact Hrow].
Defined.

(** *** Refreshing *)

Lemma set_account_same (self : ExternalProvider) (acct : ExternalAccount) :
  account self = Some acct → set_account acct self = self.
Proof. destruct self. simpl. by intros ->. Qed.

Lemma store_refreshed_Ok (acct saved memory : ExternalAccount) (token : gmap string pyval)
    (auth_key refresh_key : string) (expiry_fn : gmap string pyval → result pyval)
    (now : Z) :
  store_refreshed acct token auth_key refresh_key expiry_fn now = (Ok saved, memory) →
  (∃ v1 v2 v3, token !! auth_key = Some v1 ∧ text_column v1 = Ok (oauth_key saved)
               ∧ token !! refresh_key = Some v2
               ∧ text_column v2 = Ok (refresh_token saved)
               ∧ expiry_fn token = Ok v3
               ∧ datetime_column v3 = Ok (expires_at saved))
  ∧ date_last_refreshed saved = Some now
  ∧ provider saved = provider acct
  ∧ provider_id saved = provider_id acct
  ∧ provider_name saved = provider_name acct
  ∧ oauth_secret saved = oauth_secret acct
  ∧ scopes saved = scopes acct
  ∧ display_name saved = display_name acct
  ∧ profile_url saved = profile_url acct.
Proof.
  unfold store_refreshed, getitem.
  unfold set_date_last_refreshed, set_expires_at, set_refresh_token, set_oauth_key.
  destruct (token !! auth_key) as [v1|]; [|done].
  destruct (token !! refresh_key) as [v2|]; [|done].
  destruct (expiry_fn token) as [v3|]; [|done].
  destruct (text_column v1) as [t1|] eqn:H1; [|done]. simpl.
  destruct (text_column v2) as [t2|] eqn:H2; [|done]. simpl.
  destruct (datetime_column v3) as [t3|] eqn:H3; [|done]. simpl.
  intros [= <- _]. simpl. split; [|done]. by exists v1, v2, v3.
Qed.

(** What is in memory after the assignments, saved or not, differs from
    the account only in the tokens, the expiry and the refresh date. *)
Lemma store_refreshed_memory (acct : ExternalAccount) (token : gmap string pyval)
    (auth_key refresh_key : string) (expiry_fn : gmap string pyval → result pyval)
    (now : Z) :
  let memory := snd (store_refreshed acct token auth_key refresh_key expiry_fn now) in
  provider memory = provider acct
  ∧ provider_id memory = provider_id acct
  ∧ provider_name memory = provider_name acct
  ∧ oauth_secret memory = oauth_secret acct
  ∧ scopes memory = scopes acct
  ∧ display_name memory = display_name acct
  ∧ profile_url memory = profile_url acct.
Proof.
  unfold store_refreshed, getitem.
  unfold set_date_last_refreshed, set_expires_at, set_refresh_token, set_oauth_key.
  destruct (token !! auth_key) as [v1|]; [|done].
  destruct (token !! refresh_key) as [v2|];
    [|by destruct (text_column v1)].
  destruct (expiry_fn token) as [v3|];
    [|by destruct (text_column v1), (text_column v2)].
  by destruct (text_column v1), (text_column v2), (datetime_column v3).
Qed.

(** A call either stops before the provider's reply is looked at, the
    provider object being as before, or it goes through the assignments. *)
Lemma refresh_oauth_key_cases (self : ExternalProvider) (now : Z) (force : bool)
    (auth_key refresh_key : string)
    (expiry_fn : option (gmap string pyval → result pyval))
    (reply : result (gmap string pyval)) :
  (∃ r, refresh_oauth_key self now force auth_key refresh_key expiry_fn reply = (r, self)
        ∧ r ≠ Ok true)
  ∨ (∃ acct token,
       account self = Some acct ∧ reply = Ok token
       ∧ refresh_oauth_key self now force auth_key refresh_key expiry_fn reply
         = match store_refreshed acct token auth_key refresh_key
                   (default (default_expiry_fn now) expiry_fn) now with
           | (Raise e, memory) => (Raise e, set_account memory self)
           | (Ok saved, _) => (Ok true, set_account saved self)
           end).
Proof.
  unfold refresh_oauth_key.
  destruct (account self) as [acct|]; [|left; by eexists].
  destruct (negb (truthy_text (auto_refresh_url self))); [left; by eexists|].
  destruct (negb (truthy_text (client_id self) && truthy_text (client_secret self)));
    [left; by eexists|].
  destruct (if force then Ok true else _needs_refresh self now) as [[|]|];
    [|left; by eexists ..].
  destruct (has_expired_credentials self now) as [expired|]; [|left; by eexists].
  destruct (expired && negb force); [left; by eexists|].
  destruct reply as [token|e].
  - right. by exists acct, token.
  - left. destruct (is_rejection e); [destruct (negb force)|]; by eexists.
Qed.

(** Where a refresh that returned [True] came from. *)
Lemma refresh_oauth_key_True (self self' : ExternalProvider) (now : Z) (force : bool)
    (auth_key refresh_key : string)
    (expiry_fn : option (gmap string pyval → result pyval))
    (reply : result (gmap string pyval)) :
  refresh_oauth_key self now force auth_key refresh_key expiry_fn reply = (Ok true, self') →
  ∃ acct token saved memory,
    account self = Some acct ∧ reply = Ok token
    ∧ store_refreshed acct token auth_key refresh_key
        (default (default_expiry_fn now) expiry_fn) now = (Ok saved, memory)
    ∧ self' = set_account saved self.
Proof.
  destruct (refresh_oauth_key_cases self now force auth_key refresh_key expiry_fn reply)
    as [(r & -> & Hr)|(acct & token & Hacct & -> & ->)].
  - by intros [= -> _].
  - destruct (store_refreshed acct token auth_key refresh_key _ now)
      as [[saved|e] memory] eqn:Hstore; [|done].
    intros [= <-]. by exists acct, token, saved, memory.
Qed.

(** X24: what a refresh can change.  When it returns [False] the provider
    and its account are as before.  When it returns [True], the account has
    the access token and the refresh token of the provider's reply and the
    refresh date [now], and keeps its provider, id, name, secret, scopes,
    display name and profile URL.  When it raises, either the provider and
    its account are as before, or the reply had arrived with its access
    token: then nothing was saved, and the account in memory differs from
    the one before at most in the tokens, the expiry and the refresh
    date. *)
Theorem refresh_oauth_key_frame (self : ExternalProvider) (now : Z) (force : bool)
    (auth_key refresh_key : string)
    (expiry_fn : option (gmap string pyval → result pyval))
    (reply : result (gmap string pyval)) :
  match refresh_oauth_key self now force auth_key refresh_key expiry_fn reply with
  | (Ok true, self') =>
      ∃ acct saved token v1 v2,
        account self = Some acct ∧ self' = set_account saved self
        ∧ reply = Ok token
        ∧ token !! auth_key = Some v1 ∧ text_column v1 = Ok (oauth_key saved)
        ∧ token !! refresh_key = Some v2 ∧ text_column v2 = Ok (refresh_token saved)
        ∧ date_last_refreshed saved = Some now
        ∧ provider saved = provider acct
        ∧ provider_id saved = provider_id acct
        ∧ provider_name saved = provider_name acct
        ∧ oauth_secret saved = oauth_secret acct
        ∧ scopes saved = scopes acct
        ∧ display_name saved = display_name acct
        ∧ profile_url saved = profile_url acct
  | (Ok false, self') => self' = self
  | (Raise e, self') =>
      self' = self
      ∨ ∃ acct memory token,
          account self = Some acct ∧ self' = set_account memory self
          ∧ reply = Ok token ∧ is_Some (token !! auth_key)
          ∧ provider memory = provider acct
          ∧ provider_id memory = provider_id acct
          ∧ provider_name memory = provider_name acct
          ∧ oauth_secret memory = oauth_secret acct
          ∧ scopes memory = scopes acct
          ∧ display_name memory = display_name acct
          ∧ profile_url memory = profile_url acct
  end.
Proof.
  destruct (refresh_oauth_key self now force auth_key refresh_key expiry_fn reply)
    as [[[|]|e] self'] eqn:Hrefresh.
  - destruct (refresh_oauth_key_True _ _ _ _ _ _ _ _ Hrefresh)
      as (acct & token & saved & memory & Hacct & Hreply & Hstore & ->).
    destruct (store_refreshed_Ok _ _ _ _ _ _ _ _ Hstore)
      as ((v1 & v2 & v3 & ? & ? & ? & ? & _) & ? & ? & ? & ? & ? & ? & ? & ?).
    exists acct, saved, token, v1, v2. repeat split; done.
  - destruct (refresh_oauth_key_cases self now force auth_key refresh_key expiry_fn reply)
      as [(r & Hr & _)|(acct & token & Hacct & -> & Hr)]; rewrite Hr in Hrefresh.
    + by injection Hrefresh as _ <-.
    + by destruct (store_refreshed acct token auth_key refresh_key _ now) as [[saved|e] memory].
  - destruct (refresh_oauth_key_cases self now force auth_key refresh_key expiry_fn reply)
      as [(r & Hr & _)|(acct & token & Hacct & -> & Hr)]; rewrite Hr in Hrefresh.
    + left. by injection Hrefresh as _ <-.
    + pose proof (store_refreshed_memory acct token auth_key refresh_key
                    (default (default_expiry_fn now) expiry_fn) now) as Hmemory.
      destruct (store_refreshed acct token auth_key refresh_key _ now)
        as [[saved|e'] memory] eqn:Hstore; [done|].
      injection Hrefresh as _ <-. simpl in Hmemory.
      destruct (token !! auth_key) as [v1|] eqn:Hv1.
      * right. exists acct, memory, token. by repeat (split; [done|]).
      * left. revert Hstore. unfold store_refreshed, getitem. rewrite Hv1.
        intros [= _ <-]. by apply set_account_same.
Qed.

(** The default expiry of a reply whose [expires_in] is a whole number. *)
Lemma default_expiry_fn_Ok (now lifetime : Z) (token : gmap string pyval) (v : pyval) :
  token !! "expires_in" = Some (PInt lifetime) →
  default_expiry_fn now token = Ok v →
  v = PTime (now + lifetime * 1000000)
  ∧ timedelta_min ≤ lifetime ≤ timedelta_max
  ∧ datetime_min ≤ now + lifetime * 1000000 ≤ datetime_max.
Proof.
  unfold default_expiry_fn, getitem. intros ->. simpl.
  destruct (Z.leb_spec timedelta_min lifetime); [|done].
  destruct (Z.leb_spec lifetime timedelta_max); [|done].
  destruct (Z.leb_spec datetime_min (now + lifetime * 1000000)); [|done].
  destruct (Z.leb_spec (now + lifetime * 1000000) datetime_max); [|done].
  simpl. by intros [= <-].
Qed.

(** X25: a refreshed token is fresh.  After a refresh that returned
    [True] with the default expiry computation, for a reply whose
    [expires_in] is a whole number of seconds, the account expires that
    many seconds after [now], and it needs another refresh at [now] only if
    that lifetime is shorter than a nonzero refresh window. *)
Theorem refresh_then_needs_refresh (self self' : ExternalProvider) (now : Z) (force : bool)
    (auth_key refresh_key : string) (token : gmap string pyval) (lifetime : Z) :
  refresh_oauth_key self now force auth_key refresh_key None (Ok token) = (Ok true, self') →
  token !! "expires_in" = Some (PInt lifetime) →
  (∃ saved, account self' = Some saved
            ∧ expires_at saved = Some (now + lifetime * 1000000))
  ∧ _needs_refresh self' now
    = Ok (negb (refresh_time self =? 0) && (lifetime <? refresh_time self)).
Proof.
  intros (acct & token' & saved & memory & Hacct & [= <-] & Hstore & ->)%refresh_oauth_key_True
    Hlifetime.
  destruct (store_refreshed_Ok _ _ _ _ _ _ _ _ Hstore)
    as ((v1 & v2 & v3 & _ & _ & _ & _ & Hfn & Hcol) & _).
  simpl in Hfn.
  destruct (default_expiry_fn_Ok _ _ _ _ Hlifetime Hfn) as (-> & Hdelta & _).
  simpl in Hcol. injection Hcol as Hexp.
  split; [by exists saved|].
  unfold _needs_refresh. simpl. rewrite <- Hexp.
  destruct (refresh_time self =? 0); simpl; [done|]. f_equal.
  replace (now + lifetime * 1000000 - now) with (lifetime * 1000000) by lia.
  apply total_seconds_lt_whole.
  unfold timedelta_min, timedelta_max in Hdelta. lia.
Qed.

Lemma refresh_then_needs_refresh_witness :
  _needs_refresh
    (snd (refresh_oauth_key box_provider 800000000 false "access_token" "refresh_token" None
            (Ok {[ "access_token" := PStr "T"; "refresh_token" := PStr "R";
                   "expires_in" := PInt 3600 ]})))
    800000000
  = Ok false.
Proof.
  apply (refresh_then_needs_refresh box_provider _ 800000000 false
           "access_token" "refresh_token"
           {[ "access_token" := PStr "T"; "refresh_token" := PStr "R";
              "expires_in" := PInt 3600 ]} 3600).
  - vm_compute. reflexivity.
  - vm_compute. reflexivity.
Defined.



(** X27: what goes wrong once the refresh request is sent.  With the
    refresh configured and due (or forced), an answer of the provider that
    is an exception other than a rejection is raised whether or not the
    refresh was forced, and a reply that lacks the access-token key raises
    [KeyError]; in both cases the account is as before.  A reply that has
    the access token and lacks the refresh-token key raises [KeyError] as
    well, and so does a reply with both whose expiry cannot be computed
    raise the exception of that computation; by then the tokens that were
    there are assigned to the account in memory, while nothing is saved. *)
Theorem refresh_oauth_key_errors (self : ExternalProvider) (acct : ExternalAccount)
    (now : Z) (force : bool) (auth_key refresh_key : string)
    (expiry_fn : option (gmap string pyval → result pyval))
    (reply : result (gmap string pyval)) :
  account self = Some acct →
  truthy_text (auto_refresh_url self) = true →
  truthy_text (client_id self) = true →
  truthy_text (client_secret self) = true →
  force = true
  ∨ (_needs_refresh self now = Ok true ∧ has_expired_credentials self now = Ok false) →
  (∀ e, reply = Raise e → is_rejection e = false →
        refresh_oauth_key self now force auth_key refresh_key expiry_fn reply
        = (Raise e, self))
  ∧ (∀ token, reply = Ok token → token !! auth_key = None →
              refresh_oauth_key self now force auth_key refresh_key expiry_fn reply
              = (Raise (KeyError auth_key), self))
  ∧ (∀ token key, reply = Ok token → token !! auth_key = Some (PStr key) →
       let memory := set_oauth_key (PStr key) acct in
       oauth_key memory = Some key
       ∧ refresh_token memory = refresh_token acct
       ∧ expires_at memory = expires_at acct
       ∧ date_last_refreshed memory = date_last_refreshed acct
       ∧ (token !! refresh_key = None →
          refresh_oauth_key self now force auth_key refresh_key expiry_fn reply
          = (Raise (KeyError refresh_key), set_account memory self))
       ∧ (∀ refresh e,
            token !! refresh_key = Some (PStr refresh) →
            default (default_expiry_fn now) expiry_fn token = Raise e →
            let memory := set_refresh_token (PStr refresh) memory in
            oauth_key memory = Some key
            ∧ refresh_token memory = Some refresh
            ∧ expires_at memory = expires_at acct
            ∧ date_last_refreshed memory = date_last_refreshed acct
            ∧ refresh_oauth_key self now force auth_key refresh_key expiry_fn reply
              = (Raise e, set_account memory self))).
Proof.
  intros Hacct Hurl Hid Hsecret Hgo.
  assert (∀ reply',
            refresh_oauth_key self now force auth_key refresh_key expiry_fn reply'
            = match reply' with
              | Raise e =>
                  if is_rejection e
                  then if negb force then (Ok false, self) else (Raise e, self)
                  else (Raise e, self)
              | Ok token =>
                  match store_refreshed acct token auth_key refresh_key
                          (default (default_expiry_fn now) expiry_fn) now with
                  | (Raise e, memory) => (Raise e, set_account memory self)
                  | (Ok saved, _) => (Ok true, set_account saved self)
                  end
              end) as Hsent.
  { intros reply'. unfold refresh_oauth_key. rewrite Hacct, Hurl, Hid, Hsecret. simpl.
    destruct Hgo as [->|[Hneeds Hexpired]]; simpl.
    - unfold has_expired_credentials. rewrite Hacct.
      destruct (negb (expiry_time self =? 0)); [|done].
      destruct (expires_at acct); [|done]. simpl. by rewrite andb_false_r.
    - destruct force; rewrite ?Hneeds, Hexpired; done. }
  rewrite Hsent. split; [|split].
  - by intros e -> ->.
  - intros token -> Hnone. unfold store_refreshed, getitem. rewrite Hnone.
    by rewrite set_account_same.
  - intros token key -> Hkey. simpl. repeat (split; [done|]). split.
    + intros Hnone. unfold store_refreshed, getitem. by rewrite Hkey, Hnone.
    + intros refresh e Hrefresh Hfn. repeat (split; [done|]).
      unfold store_refreshed, getitem. by rewrite Hkey, Hrefresh, Hfn.
Qed.

Lemma refresh_oauth_key_errors_witness :
  refresh_oauth_key box_provider 800000000 false "access_token" "refresh_token" None
    (Raise (TransportError "timeout"))
  = (Raise (TransportError "timeout"), box_provider)
  ∧ refresh_oauth_key box_provider 800000000 false "access_token" "refresh_token" None
      (Ok {[ "access_token" := PStr "T" ]})
    = (Raise (KeyError "refresh_token"),
       set_account (set_oauth_key (PStr "T") box_account) box_provider).
Proof.
  split.
  - destruct (refresh_oauth_key_errors box_provider box_account 800000000 false
                "access_token" "refresh_token" None (Raise (TransportError "timeout")))
      as (Hraise & _);
      [reflexivity|vm_compute; reflexivity ..|right; vm_compute; split; reflexivity|].
    apply (Hraise (TransportError "timeout")); reflexivity.
  - destruct (refresh_oauth_key_errors box_provider box_account 800000000 false
                "access_token" "refresh_token" None (Ok {[ "access_token" := PStr "T" ]}))
      as (_ & _ & Hkey);
      [reflexivity|vm_compute; reflexivity ..|right; vm_compute; split; reflexivity|].
    destruct (Hkey {[ "access_token" := PStr "T" ]} "T") as (_ & _ & _ & _ & Hmissing & _);
      [reflexivity|vm_compute; reflexivity|].
    apply Hmissing. vm_compute. reflexivity.
Defined.

End CredentialLaws.

(** ** Laws of the encrypted text columns *)

Module EncryptionLaws.
Import Encryption.

Lemma prefix_append (p x : string) : String.prefix p (String.append p x) = true.
Proof.
  induction p as [|c p IH]; simpl; [by destruct x|].
  by destruct (Ascii.ascii_dec c c).
Qed.

Lemma string_drop_append (p x : string) :
  string_drop (String.length p) (String.append p x) = x.
Proof. induction p as [|c p IH]; simpl; [done|exact IH]. Qed.

Lemma prefix_empty (v : string) : String.prefix "" v = true.
Proof. by destruct v. Qed.

Lemma eqb_empty_false (v : string) : v ≠ "" → String.eqb v "" = false.
Proof. intros Hv. by apply String.eqb_neq. Qed.

Section Cipher.

Variable jwe_encrypt : string → string.
Variable jwe_decrypt : string → result string.
Hypothesis jwe_round_trip : ∀ b, jwe_decrypt (jwe_encrypt b) = Ok b.

(** X28: what is encrypted can be read back.  A text that is not empty
    and does not start with the prefix is stored as the prefix followed by
    its ciphertext, and [decrypt_string] gives the text back; as [bytes]
    the same text is stored the same way. *)
Theorem encrypt_decrypt_round_trip (v prefix : string) :
  v ≠ "" →
  String.prefix prefix v = false →
  encrypt_string jwe_encrypt (TStr v) prefix
  = Ok (TStr (String.append prefix (jwe_encrypt v)))
  ∧ encrypt_string jwe_encrypt (TBytes v) prefix
    = encrypt_string jwe_encrypt (TStr v) prefix
  ∧ decrypt_string jwe_decrypt (TStr (String.append prefix (jwe_encrypt v))) prefix
    = Ok (TStr v).
Proof.
  intros Hv Hprefix.
  assert (prefix ≠ "") as Hp by (intros ->; by rewrite prefix_empty in Hprefix).
  unfold encrypt_string, decrypt_string. simpl.
  rewrite (eqb_empty_false v Hv), Hprefix. simpl.
  split; [done|]. split; [done|].
  assert (String.append prefix (jwe_encrypt v) ≠ "") as Hc.
  { destruct prefix; [done|]. by simpl. }
  rewrite (eqb_empty_false _ Hc). simpl.
  by rewrite prefix_append, string_drop_append, jwe_round_trip.
Qed.

End Cipher.

Lemma encrypt_decrypt_round_trip_witness :
  decrypt_string Ok (TStr (String.append "jwe:::" "token")) "jwe:::" = Ok (TStr "token").
Proof.
  apply (encrypt_decrypt_round_trip (λ b, b) Ok (λ b, eq_refl) "token" "jwe:::").
  - discriminate.
  - vm_compute. reflexivity.
Defined.

(** X29: nothing is encrypted twice, and nothing that looks encrypted is
    encrypted at all.  Applied to its own result, [encrypt_string] returns
    the same characters; a text that already starts with the prefix is
    returned as it is, in clear; and [decrypt_string] returns the
    characters of whatever does not start with the prefix, without
    decrypting. *)
Theorem encrypt_string_once (jwe_encrypt : string → string)
    (jwe_decrypt : string → result string) (value : text) (prefix : string) :
  (∀ stored, encrypt_string jwe_encrypt value prefix = Ok stored →
     ∃ again, encrypt_string jwe_encrypt stored prefix = Ok again
              ∧ characters again = characters stored)
  ∧ (∀ rest, encrypt_string jwe_encrypt (TStr (String.append prefix rest)) prefix
             = Ok (if String.eqb (String.append prefix rest) ""
                   then TStr (String.append prefix rest)
                   else TBytes (String.append prefix rest)))
  ∧ (∀ b, ensure_bytes value = Ok b → String.prefix prefix b = false →
          ∃ plain, decrypt_string jwe_decrypt value prefix = Ok plain
                   ∧ characters plain = characters value).
Proof.
  split; [|split].
  - intros stored. unfold encrypt_string at 1.
    destruct (truthy_value value) eqn:Htruthy.
    + assert (∃ b, ensure_bytes value = Ok b ∧ String.eqb b "" = false) as (b & -> & Hb).
      { destruct value as [|s|s]; [done|exists s|exists s]; simpl in *;
          by destruct (String.eqb s ""). }
      simpl. rewrite Hb. simpl. destruct (String.prefix prefix b) eqn:Hprefix; simpl.
      * intros [= <-]. unfold encrypt_string. simpl. rewrite Hb, Hprefix. simpl. eauto.
      * intros [= <-]. unfold encrypt_string. simpl.
        destruct (String.eqb (String.append prefix (jwe_encrypt b)) ""); simpl; [eauto|].
        rewrite prefix_append. simpl. eauto.
    + intros [= <-]. unfold encrypt_string. rewrite Htruthy. eauto.
  - intros rest. unfold encrypt_string. simpl.
    destruct (String.eqb (String.append prefix rest) ""); simpl; [done|].
    by rewrite prefix_append.
  - intros b Hb Hprefix. unfold decrypt_string.
    destruct (truthy_value value); [|eauto].
    rewrite Hb. simpl. rewrite Hprefix. eexists. split; [done|].
    by destruct value; simplify_eq/=.
Qed.

End EncryptionLaws.

(** ** Laws of the credential formats *)

Module FormatsLaws.
Import Formats.

(** X30: every format but [UNSPECIFIED] has a dataclass, and asking for
    the dataclass of [UNSPECIFIED] raises [ValueError].  The numbers of the
    formats are pairwise distinct, and two distinct formats share a
    dataclass only if they are [OAUTH2] and [PERSONAL_ACCESS_TOKEN]. *)
Theorem dataclass_support (f g : CredentialsFormats) :
  (dataclass f = Raise ValueError ↔ f = UNSPECIFIED)
  ∧ ((∃ c, dataclass f = Ok c) ↔ f ≠ UNSPECIFIED)
  ∧ (value f = value g → f = g)
  ∧ (∀ c, dataclass f = Ok c → dataclass g = Ok c → f ≠ g →
          c = AccessTokenCredentials
          ∧ (f = OAUTH2 ∧ g = PERSONAL_ACCESS_TOKEN
             ∨ f = PERSONAL_ACCESS_TOKEN ∧ g = OAUTH2)).
Proof.
  split; [|split; [|split]].
  - by destruct f.
  - destruct f; split; (done || eauto || by intros [? ?]).
  - by destruct f, g.
  - intros c. destruct f, g; simpl; intros [= <-] Hg Hne; simplify_eq; auto.
Qed.

End FormatsLaws.
